(** * OPAL PNOR flash MTD abstraction (drivers/mtd/devices/powernv_flash.c)

    A shallow embedding of the powernv_flash driver: the asynchronous
    operation bridge [powernv_flash_async_op], the MTD entry points built on
    it ([powernv_flash_read], [powernv_flash_write], [powernv_flash_erase])
    and the start-up path ([powernv_flash_set_driver_info],
    [powernv_flash_probe]).

    The driver is sequential C code that talks to collaborators it does not
    define: the OPAL firmware calls, the async token pool, the device tree
    and the MTD core.  Every call into a collaborator is recorded in a log
    kept in the [world]; what the collaborator answers is taken from a
    [platform], a deterministic strategy that sees the log so far.  Memory
    the driver writes through pointers (the [retlen] out-parameter, the
    caller's [struct erase_info]) lives in the [world] as well. *)

From Stdlib Require Import ZArith Lia.
From stdpp Require Import base option list gmap strings.

Local Open Scope Z_scope.

(** ** Machine integers *)

Module CInt.

(** Conversion to an unsigned integer type of [w] bits. *)
Definition wrap_unsigned (w z : Z) : Z := z mod 2 ^ w.

(** Conversion to a signed (two's complement) integer type of [w] bits. *)
Definition wrap_signed (w z : Z) : Z :=
  (z + 2 ^ (w - 1)) mod 2 ^ w - 2 ^ (w - 1).

(** [int] is 32 bits wide, [uint64_t], [size_t] and [unsigned long] 64. *)
Definition to_int : Z -> Z := wrap_signed 32.
Definition to_u64 : Z -> Z := wrap_unsigned 64.

(** Big-endian storage: the bytes of a [__be32] or [__be64] object as they
    lie in memory, most significant first.  [be_to_cpu] is what
    [be32_to_cpu] and [be64_to_cpu] compute from them. *)
Definition be_to_cpu (bytes : list Z) : Z :=
  fold_left (fun acc b => Z.lor (Z.shiftl acc 8) (Z.land b 255)) bytes 0.

End CInt.
Export CInt.

(** The null pointer. *)
Definition NULL : Z := 0.

(** ** Constants of headers that are not part of the sources at hand *)

(** Modelled from the spec: [linux/errno.h] is not among the sources; the
    spec names the classes (out-of-memory, I/O failure, interruption by a
    signal) and the numbers are the kernel's errno values. *)
Definition ENOMEM : Z := 12.
Definition EIO : Z := 5.
Definition ERESTARTSYS : Z := 512.

(** Modelled from the spec: [asm/opal.h] is not among the sources; the
    "accepted for async completion" dispatch answer and the designated
    success status of the spec, with the numbers of the OPAL API. *)
Definition OPAL_SUCCESS : Z := 0.
Definition OPAL_PARAMETER : Z := -1.
Definition OPAL_HARDWARE : Z := -6.
Definition OPAL_ASYNC_COMPLETION : Z := -15.

(** Modelled from the spec: [mtd/mtd-abi.h] is not among the sources; device
    type and capability flags stored by [powernv_flash_set_driver_info]. *)
Definition MTD_NANDFLASH : Z := 4.
Definition MTD_WRITEABLE : Z := 1024.
Definition MTD_CAP_NANDFLASH : Z := MTD_WRITEABLE.

(** ** Data model *)

(** [enum flash_op]. *)
Inductive flash_op : Type :=
| FLASH_OP_READ
| FLASH_OP_WRITE
| FLASH_OP_ERASE.

(** The enumerator's value, as printed with [%d]. *)
Definition flash_op_value (op : flash_op) : Z :=
  match op with
  | FLASH_OP_READ => 0
  | FLASH_OP_WRITE => 1
  | FLASH_OP_ERASE => 2
  end.

(** Modelled from the spec: the erase request states of [linux/mtd/mtd.h]
    (PENDING, ERASING, DONE, FAILED in the spec's state machine). *)
Inductive erase_state : Type :=
| MTD_ERASE_PENDING
| MTD_ERASING
| MTD_ERASE_SUSPEND
| MTD_ERASE_DONE
| MTD_ERASE_FAILED.

(** The fields of [struct erase_info] the driver touches. *)
Record erase_info : Type := mk_erase_info {
  addr : Z;
  len : Z;
  fail_addr : Z;
  state : erase_state
}.

Definition set_state (e : erase_info) (s : erase_state) : erase_info :=
  {| addr := addr e; len := len e; fail_addr := fail_addr e; state := s |}.

Definition set_fail_addr (e : erase_info) (a : Z) : erase_info :=
  {| addr := addr e; len := len e; fail_addr := a; state := state e |}.

(** The handlers a [struct mtd_info] can point to. *)
Inductive mtd_handler : Type :=
| no_handler
| handler_powernv_flash_erase
| handler_powernv_flash_read
| handler_powernv_flash_write.

(** The fields of [struct mtd_info] the driver touches.  [name] is a pointer
    to the bytes of a device-tree property, [None] when null. *)
Record mtd_info : Type := mk_mtd_info {
  name : option (list Z);
  type : Z;
  flags : Z;
  size : Z;
  erasesize : Z;
  writesize : Z;
  writebufsize : Z;
  owner_this_module : bool;
  _erase : mtd_handler;
  _read : mtd_handler;
  _write : mtd_handler;
  dev_parent : Z;
  priv : Z
}.

(** [struct powernv_flash]. *)
Record powernv_flash : Type := mk_powernv_flash {
  mtd : mtd_info;
  id : Z
}.

(** Modelled from the spec: [struct opal_msg] of [asm/opal.h], the
    completion message; each parameter is a [__be64], kept as its bytes. *)
Record opal_msg : Type := mk_opal_msg {
  msg_type : list Z;
  reserved : list Z;
  params : list (list Z)
}.

(** A device-tree node: property name to property value (its bytes). *)
Abbreviation device_node := (gmap string (list Z)).

(** [struct device]: its address and its device-tree node. *)
Record device : Type := mk_device {
  dev_addr : Z;
  of_node : device_node
}.

(** [struct platform_device]. *)
Record platform_device : Type := mk_platform_device {
  dev : device
}.

(** ** Calls into collaborators *)

(** One entry per call the driver makes outside itself, with the arguments
    as passed and the value that came back. *)
Inductive call : Type :=
| call_dev_dbg (fmt : string) (args : list Z)
| call_dev_err (fmt : string) (args : list Z)
| call_opal_async_get_token_interruptible (ret : Z)
| call_opal_flash_read (id offset buf size token : Z) (ret : Z)
| call_opal_flash_write (id offset buf size token : Z) (ret : Z)
| call_opal_flash_erase (id offset size token : Z) (ret : Z)
| call_opal_async_wait_response (token : Z) (ret : Z) (msg : opal_msg)
| call_opal_async_release_token (token : Z)
| call_mtd_erase_callback (erase : Z) (seen : erase_info)
| call_devm_kzalloc (ret : Z)
| call_mtd_device_parse_register (mtd : mtd_info) (ret : Z).

(** The collaborators: what each call answers, given the calls made so far
    and the arguments. *)
Record platform : Type := mk_platform {
  (** [int opal_async_get_token_interruptible(void)]: a token, or a negative
      errno ([-ERESTARTSYS] when a signal interrupts the wait). *)
  get_token : list call -> Z;
  (** [int64_t opal_flash_read(id, offset, buf, size, token)] and its
      siblings. *)
  flash_read : list call -> Z -> Z -> Z -> Z -> Z -> Z;
  flash_write : list call -> Z -> Z -> Z -> Z -> Z -> Z;
  flash_erase : list call -> Z -> Z -> Z -> Z -> Z;
  (** [int opal_async_wait_response(uint64_t token, &msg)]: the return code
      and what [msg] holds afterwards. *)
  wait_response : list call -> Z -> Z * opal_msg;
  (** The macro [__pa]: kernel virtual address to physical address. *)
  phys_addr : Z -> Z;
  (** [devm_kzalloc]: the address of the zeroed allocation, or [NULL]. *)
  kzalloc : list call -> Z;
  (** [int mtd_device_parse_register(mtd, ...)]. *)
  parse_register : list call -> mtd_info -> Z;
  (** What an [int] local holds before anything is stored in it. *)
  indeterminate_int : Z
}.

(** ** The world and the monad of driver code *)

Record world : Type := mk_world {
  (** [size_t] objects by address (targets of [retlen]). *)
  w_size_t : gmap Z Z;
  (** [struct erase_info] objects by address. *)
  w_erase : gmap Z erase_info;
  (** The calls made so far, oldest first. *)
  w_log : list call
}.

(** A run either returns a value or dies in a kernel oops ([BUG_ON], a null
    dereference, a read past the end of an object). *)
Inductive outcome (A : Type) : Type :=
| Ret (a : A) (w : world)
| Oops (w : world).
Arguments Ret {A} a w.
Arguments Oops {A} w.

Definition kern (A : Type) : Type := world -> outcome A.

Definition kret {A} (a : A) : kern A := fun w => Ret a w.

Definition kbind {A B} (m : kern A) (k : A -> kern B) : kern B :=
  fun w => match m w with
           | Ret a w' => k a w'
           | Oops w' => Oops w'
           end.

Definition oops {A} : kern A := fun w => Oops w.

#[global] Instance kern_ret : MRet kern := @kret.
#[global] Instance kern_bind : MBind kern := fun A B k m => kbind m k.

(** Record a call. *)
Definition emit (c : call) : kern unit :=
  fun w => Ret tt {| w_size_t := w_size_t w; w_erase := w_erase w;
                     w_log := w_log w ++ [c] |}.

(** Ask the platform, given the log so far. *)
Definition ask {A} (f : list call -> A) : kern A :=
  fun w => Ret (f (w_log w)) w.

Definition dev_dbg (fmt : string) (args : list Z) : kern unit :=
  emit (call_dev_dbg fmt args).

Definition dev_err (fmt : string) (args : list Z) : kern unit :=
  emit (call_dev_err fmt args).

Definition opal_async_get_token_interruptible (P : platform) : kern Z :=
  r ← ask (get_token P);
  emit (call_opal_async_get_token_interruptible r) ;; kret r.

Definition opal_flash_read (P : platform) (id offset buf size token : Z)
  : kern Z :=
  r ← ask (fun h => flash_read P h id offset buf size token);
  emit (call_opal_flash_read id offset buf size token r) ;; kret r.

Definition opal_flash_write (P : platform) (id offset buf size token : Z)
  : kern Z :=
  r ← ask (fun h => flash_write P h id offset buf size token);
  emit (call_opal_flash_write id offset buf size token r) ;; kret r.

Definition opal_flash_erase (P : platform) (id offset size token : Z)
  : kern Z :=
  r ← ask (fun h => flash_erase P h id offset size token);
  emit (call_opal_flash_erase id offset size token r) ;; kret r.

Definition opal_async_wait_response (P : platform) (token : Z)
  : kern (Z * opal_msg) :=
  r ← ask (fun h => wait_response P h token);
  emit (call_opal_async_wait_response token (fst r) (snd r)) ;; kret r.

Definition opal_async_release_token (token : Z) : kern unit :=
  emit (call_opal_async_release_token token).

(** [*p = v] for a [size_t *p]; a store through the null pointer oopses. *)
Definition store_size_t (p v : Z) : kern unit :=
  fun w => if p =? NULL then Oops w
           else Ret tt {| w_size_t := <[p := v]> (w_size_t w);
                          w_erase := w_erase w; w_log := w_log w |}.

(** [msg.params[i]], an array of eight [__be64]. *)
Definition msg_param (msg : opal_msg) (i : nat) : list Z :=
  nth i (params msg) [].

(** ** The asynchronous operation bridge *)

(** [powernv_flash_async_op].  [info] is the [struct powernv_flash] that
    [mtd->priv] points to; [retlen] and [buf] are addresses.  [enum
    flash_op] has three enumerators, so the [default: BUG_ON(1)] arm of the
    switch has no counterpart.  The firmware calls return [int64_t] and take
    [uint64_t] arguments; [rc] and [token] are [int].  The last statement is
    [return 0;]: the [rc] computed from the completion status is dropped. *)
Definition powernv_flash_async_op (P : platform) (info : powernv_flash)
    (op : flash_op) (offset len retlen buf : Z) : kern Z :=
  dev_dbg "%s(op=%d, offset=0x%llx, len=%zu)\n"
          [flash_op_value op; offset; len] ;;
  token ← opal_async_get_token_interruptible P;
  if token <? 0 then
    dev_err "Failed to get an async token\n" [] ;;
    kret (- ENOMEM)
  else
    rc ← match op with
         | FLASH_OP_READ =>
             opal_flash_read P (id info) (to_u64 offset) (phys_addr P buf)
                             len (to_u64 token)
         | FLASH_OP_WRITE =>
             opal_flash_write P (id info) (to_u64 offset) (phys_addr P buf)
                              len (to_u64 token)
         | FLASH_OP_ERASE =>
             opal_flash_erase P (id info) (to_u64 offset) len (to_u64 token)
         end;
    let rc := to_int rc in
    if negb (rc =? OPAL_ASYNC_COMPLETION) then
      dev_err "opal_flash_async_op(op=%d) failed (rc %d)\n"
              [flash_op_value op; rc] ;;
      kret (- EIO)
    else
      r ← opal_async_wait_response P (to_u64 token);
      let rc := fst r in
      let msg := snd r in
      opal_async_release_token token ;;
      if negb (rc =? 0) then
        dev_err "opal async wait failed (rc %d)\n" [rc] ;;
        kret (- EIO)
      else
        let rc := to_int (be_to_cpu (msg_param msg 1)) in
        rc ← (if rc =? OPAL_SUCCESS then
                (if negb (retlen =? NULL) then store_size_t retlen len
                 else kret tt) ;;
                kret 0
              else
                kret (- EIO));
        kret 0.

(** [powernv_flash_read]. *)
Definition powernv_flash_read (P : platform) (info : powernv_flash)
    (from len retlen buf : Z) : kern Z :=
  powernv_flash_async_op P info FLASH_OP_READ from len retlen buf.

(** [powernv_flash_write]. *)
Definition powernv_flash_write (P : platform) (info : powernv_flash)
    (to len retlen buf : Z) : kern Z :=
  powernv_flash_async_op P info FLASH_OP_WRITE to len retlen buf.

(** ** Erase *)

(** [erase->field] reads and writes go through the caller's object; a
    pointer that designates no [struct erase_info] oopses. *)
Definition load_erase (erase : Z) : kern erase_info :=
  fun w => match w_erase w !! erase with
           | Some e => Ret e w
           | None => Oops w
           end.

Definition update_erase (erase : Z) (f : erase_info -> erase_info)
  : kern unit :=
  fun w => match w_erase w !! erase with
           | Some e => Ret tt {| w_size_t := w_size_t w;
                                 w_erase := <[erase := f e]> (w_erase w);
                                 w_log := w_log w |}
           | None => Oops w
           end.

(** [mtd_erase_callback(erase)]: the notification, with the request as the
    callee finds it. *)
Definition mtd_erase_callback (erase : Z) : kern unit :=
  e ← load_erase erase;
  emit (call_mtd_erase_callback erase e).

(** [powernv_flash_erase]. *)
Definition powernv_flash_erase (P : platform) (info : powernv_flash)
    (erase : Z) : kern Z :=
  update_erase erase (fun e => set_state e MTD_ERASING) ;;
  e ← load_erase erase;
  rc ← powernv_flash_async_op P info FLASH_OP_ERASE (addr e) (len e)
                              NULL NULL;
  (if negb (rc =? 0) then
     update_erase erase (fun e => set_fail_addr e (addr e)) ;;
     update_erase erase (fun e => set_state e MTD_ERASE_FAILED)
   else
     update_erase erase (fun e => set_state e MTD_ERASE_DONE)) ;;
  mtd_erase_callback erase ;;
  mret 0.

(** ** Start-up *)

(** Modelled from the spec: the device description is "consumed once at
    startup" through [of_get_property] (drivers/of/base.c, not among the
    sources).  It returns a pointer to the property's value, null when the
    node has no such property, and stores the value's length through [lenp]
    only when the property exists and [lenp] is not null.  [lenp] is [None]
    for a null pointer and [Some c] for a pointer to an [int] holding [c];
    the second component is what that [int] holds afterwards. *)
Definition of_get_property (np : device_node) (name : string)
    (lenp : option Z) : option (list Z) * option Z :=
  match np !! name with
  | Some v => (Some v, (fun _ => Z.of_nat (length v)) <$> lenp)
  | None => (None, lenp)
  end.

(** Cell [i] behind a [const __be32 *cell]: its four bytes, if the object
    has them. *)
Definition read_cell (value : list Z) (i : nat) : option (list Z) :=
  let c := take 4 (drop (4 * i) value) in
  if decide (length c = 4%nat) then Some c else None.

(** The loop of [of_read_number]: while [size--] is not zero, [r] becomes
    [(r << 32) | be32_to_cpu(c)] for the next cell [c].  [i] counts the
    cells consumed so far. *)
Fixpoint of_read_number_loop (value : list Z) (i size : nat) (r : Z)
  : option Z :=
  match size with
  | O => Some r
  | S size' =>
      match read_cell value i with
      | Some c =>
          of_read_number_loop value (S i) size'
            (to_u64 (Z.lor (Z.shiftl r 32) (be_to_cpu c)))
      | None => None
      end
  end.

(** Modelled from the spec: [of_read_number(cell, size)] of [linux/of.h]
    (not among the sources) reads [size] big-endian 32-bit cells into a
    [u64].  Reading through a null pointer oopses.  The function has no
    length to check against: a read past the end of the property fetches
    bytes that are no part of the device description.  Such a run is not
    followed here, it ends like an oops; what is stated about start-up
    either supposes properties as long as the cells read from them or
    holds whatever those bytes are. *)
Definition of_read_number (cell : option (list Z)) (size : nat) : kern Z :=
  match cell with
  | None => oops
  | Some value =>
      match of_read_number_loop value 0 size 0 with
      | Some r => mret r
      | None => oops
      end
  end.

(** [sizeof(__be32)]. *)
Definition sizeof_be32 : Z := 4.

(** [powernv_flash_set_driver_info]: the return code and the filled
    [struct mtd_info]. *)
Definition powernv_flash_set_driver_info (P : platform) (dev : device)
    (mtd : mtd_info) : kern (Z * mtd_info) :=
  let count := indeterminate_int P in
  let erase_size := fst (of_get_property (of_node dev)
                                         "ibm,flash-block-size" None) in
  if bool_decide (erase_size = None) then
    dev_err "no device property 'ibm,flash-block-size'\n" [] ;;
    mret (1, mtd)
  else
    let '(reg, count) :=
      match of_get_property (of_node dev) "reg" (Some count) with
      | (reg, Some count) => (reg, count)
      | (reg, None) => (reg, count)
      end in
    if negb (to_u64 count / sizeof_be32 =? 2) then
      dev_err "couldn't get resource information count=%d\n" [count] ;;
      mret (1, mtd)
    else
      let name := fst (of_get_property (of_node dev) "name" None) in
      size ← of_read_number reg 2;
      erasesize ← of_read_number erase_size 1;
      mret (0, {| name := name;
                  type := MTD_NANDFLASH;
                  flags := MTD_CAP_NANDFLASH;
                  size := size;
                  erasesize := erasesize;
                  writesize := 1;
                  writebufsize := 1;
                  owner_this_module := true;
                  _erase := handler_powernv_flash_erase;
                  _read := handler_powernv_flash_read;
                  _write := handler_powernv_flash_write;
                  dev_parent := dev_addr dev;
                  priv := priv mtd |}).

(** What [devm_kzalloc] hands out: a zeroed [struct powernv_flash]. *)
Definition zeroed_powernv_flash : powernv_flash :=
  {| mtd := {| name := None; type := 0; flags := 0; size := 0;
               erasesize := 0; writesize := 0; writebufsize := 0;
               owner_this_module := false; _erase := no_handler;
               _read := no_handler; _write := no_handler;
               dev_parent := NULL; priv := NULL |};
     id := 0 |}.

Definition set_priv (m : mtd_info) (p : Z) : mtd_info :=
  {| name := name m; type := type m; flags := flags m; size := size m;
     erasesize := erasesize m; writesize := writesize m;
     writebufsize := writebufsize m;
     owner_this_module := owner_this_module m; _erase := _erase m;
     _read := _read m; _write := _write m; dev_parent := dev_parent m;
     priv := p |}.

Definition devm_kzalloc (P : platform) : kern Z :=
  r ← ask (kzalloc P);
  emit (call_devm_kzalloc r) ;; mret r.

Definition mtd_device_parse_register (P : platform) (mtd : mtd_info)
  : kern Z :=
  r ← ask (fun h => parse_register P h mtd);
  emit (call_mtd_device_parse_register mtd r) ;; mret r.

(** [powernv_flash_probe]. *)
Definition powernv_flash_probe (P : platform) (pdev : platform_device)
  : kern Z :=
  let dev := dev pdev in
  let ret := - ENOMEM in
  data ← devm_kzalloc P;
  if data =? NULL then
    dev_err "couldn't allocate memory\n" [] ;;
    mret ret
  else
    let data_mtd := set_priv (mtd zeroed_powernv_flash) data in
    let ret := - EIO in
    let prop := fst (of_get_property (of_node dev) "ibm,opal-id" None) in
    if bool_decide (prop = None) then
      dev_err "no device property 'ibm,opal-id\n" [] ;;
      mret ret
    else
      data_id ← of_read_number prop 1;
      r ← powernv_flash_set_driver_info P dev data_mtd;
      if negb (fst r =? 0) then
        mret ret
      else
        ret ← mtd_device_parse_register P (snd r);
        mret ret.

(** ** Reading the log *)

(** The world a run ends in, whether it returns or oopses. *)
Definition final_world {A} (o : outcome A) : world :=
  match o with
  | Ret _ w => w
  | Oops w => w
  end.

(** The calls made between two worlds of one run. *)
Definition calls_since (w w' : world) : list call :=
  drop (length (w_log w)) (w_log w').

(** [w] after the calls [cs], memory untouched. *)
Definition after_calls (w : world) (cs : list call) : world :=
  {| w_size_t := w_size_t w; w_erase := w_erase w;
     w_log := w_log w ++ cs |}.

(** [w] after the calls [cs], with [m] for the [size_t] objects. *)
Definition world_after (w : world) (cs : list call) (m : gmap Z Z) : world :=
  {| w_size_t := m; w_erase := w_erase w; w_log := w_log w ++ cs |}.

(** [w] with the request at [erase] replaced by [e]. *)
Definition with_erase (w : world) (erase : Z) (e : erase_info) : world :=
  {| w_size_t := w_size_t w; w_erase := <[erase := e]> (w_erase w);
     w_log := w_log w |}.

(** The calls one invocation of the bridge makes. *)
Definition bridge_calls (P : platform) (info : powernv_flash) (op : flash_op)
    (offset len retlen buf : Z) (w : world) : list call :=
  calls_since w
    (final_world (powernv_flash_async_op P info op offset len retlen buf w)).

(** The calls one invocation of [powernv_flash_erase] makes. *)
Definition erase_calls (P : platform) (info : powernv_flash) (erase : Z)
    (w : world) : list call :=
  calls_since w (final_world (powernv_flash_erase P info erase w)).

(** The calls one invocation of [powernv_flash_probe] makes. *)
Definition probe_calls (P : platform) (pdev : platform_device) (w : world)
  : list call :=
  calls_since w (final_world (powernv_flash_probe P pdev w)).

Definition is_release (t : Z) (c : call) : bool :=
  match c with
  | call_opal_async_release_token t' => t' =? t
  | _ => false
  end.

Definition is_erase_callback (c : call) : bool :=
  match c with
  | call_mtd_erase_callback _ _ => true
  | _ => false
  end.

Definition is_register (c : call) : bool :=
  match c with
  | call_mtd_device_parse_register _ _ => true
  | _ => false
  end.

(** How often a kind of call occurs. *)
Definition count_calls (p : call -> bool) (cs : list call) : nat :=
  length (List.filter p cs).

(** The token pool as the log shows it: a successful acquisition puts the
    token among the held ones, a release takes it out. *)
Definition held_step (held : list Z) (c : call) : list Z :=
  match c with
  | call_opal_async_get_token_interruptible t =>
      if t <? 0 then held else t :: held
  | call_opal_async_release_token t =>
      List.filter (fun t' => negb (t' =? t)) held
  | _ => held
  end.

Definition held_tokens (cs : list call) : list Z :=
  fold_left held_step cs [].

(** The firmware's answer to a dispatch, as stored in [int rc]. *)
Definition dispatch_rc (c : call) : option Z :=
  match c with
  | call_opal_flash_read _ _ _ _ _ r
  | call_opal_flash_write _ _ _ _ _ r
  | call_opal_flash_erase _ _ _ _ r => Some (to_int r)
  | _ => None
  end.

(** The completion status the bridge decodes from a message:
    [rc = be64_to_cpu(msg.params[1])] with [int rc]. *)
Definition decoded_status (msg : opal_msg) : Z :=
  to_int (be_to_cpu (msg_param msg 1)).

(** What happened in an invocation of the bridge, read off its calls. *)
Definition token_failed (cs : list call) : Prop :=
  exists t, call_opal_async_get_token_interruptible t ∈ cs /\ t < 0.

Definition token_acquired (t : Z) (cs : list call) : Prop :=
  call_opal_async_get_token_interruptible t ∈ cs /\ 0 <= t.

Definition dispatch_rejected (cs : list call) : Prop :=
  exists c rc, c ∈ cs /\ dispatch_rc c = Some rc /\
               rc <> OPAL_ASYNC_COMPLETION.

Definition dispatch_accepted (cs : list call) : Prop :=
  exists c, c ∈ cs /\ dispatch_rc c = Some OPAL_ASYNC_COMPLETION.

Definition wait_failed (cs : list call) : Prop :=
  exists t rc msg, call_opal_async_wait_response t rc msg ∈ cs /\ rc <> 0.

Definition completed_with (status : Z) (cs : list call) : Prop :=
  exists t msg, call_opal_async_wait_response t 0 msg ∈ cs /\
                decoded_status msg = status.

(** The request an erase leaves behind, from the request [e] it found and
    the bridge's return value [rc]. *)
Definition erase_outcome (e : erase_info) (rc : Z) : erase_info :=
  if rc =? 0 then set_state e MTD_ERASE_DONE
  else set_state (set_fail_addr e (addr e)) MTD_ERASE_FAILED.

(** ** Error kinds *)

(** Modelled from the spec: the error taxonomy of the spec's error-handling
    design.  A rejected dispatch is "treated as an I/O failure", so at the
    boundary it is the same kind as a failed completion. *)
Inductive ErrorKind : Type :=
| ResourceExhausted
| Interrupted
| IOFailure.

(** Modelled from the spec: the kind a negative errno stands for at the
    boundary: out-of-memory is [ResourceExhausted], an interrupted wait
    ([-ERESTARTSYS]) is [Interrupted], [-EIO] is [IOFailure]. *)
Definition error_kind (ret : Z) : option ErrorKind :=
  if ret =? - ENOMEM then Some ResourceExhausted
  else if ret =? - ERESTARTSYS then Some Interrupted
  else if ret =? - EIO then Some IOFailure
  else None.

(** ** The paths through the bridge *)

Section AsyncOpPaths.

Variables (P : platform) (info : powernv_flash) (op : flash_op).
Variables (offset len retlen buf : Z).

Definition entry_call : call :=
  call_dev_dbg "%s(op=%d, offset=0x%llx, len=%zu)\n"
               [flash_op_value op; offset; len].

(** The dispatch the switch selects for [op], answered with [r]. *)
Definition dispatch_call (token r : Z) : call :=
  match op with
  | FLASH_OP_READ =>
      call_opal_flash_read (id info) (to_u64 offset) (phys_addr P buf)
                           len (to_u64 token) r
  | FLASH_OP_WRITE =>
      call_opal_flash_write (id info) (to_u64 offset) (phys_addr P buf)
                            len (to_u64 token) r
  | FLASH_OP_ERASE =>
      call_opal_flash_erase (id info) (to_u64 offset) len (to_u64 token) r
  end.

(** One constructor per [return] of [powernv_flash_async_op] (the last
    [return] is reached with or without the store through [retlen]):
    the value returned, the calls made and the [size_t] objects
    afterwards, from the [size_t] objects [m] before. *)
Inductive async_op_path (m : gmap Z Z) : Z -> list call -> gmap Z Z -> Prop :=
| path_no_token t :
    t < 0 ->
    async_op_path m (- ENOMEM)
      [entry_call;
       call_opal_async_get_token_interruptible t;
       call_dev_err "Failed to get an async token\n" []]
      m
| path_rejected t r :
    0 <= t ->
    to_int r <> OPAL_ASYNC_COMPLETION ->
    async_op_path m (- EIO)
      [entry_call;
       call_opal_async_get_token_interruptible t;
       dispatch_call t r;
       call_dev_err "opal_flash_async_op(op=%d) failed (rc %d)\n"
                    [flash_op_value op; to_int r]]
      m
| path_wait_failed t r rc msg :
    0 <= t ->
    to_int r = OPAL_ASYNC_COMPLETION ->
    rc <> 0 ->
    async_op_path m (- EIO)
      [entry_call;
       call_opal_async_get_token_interruptible t;
       dispatch_call t r;
       call_opal_async_wait_response (to_u64 t) rc msg;
       call_opal_async_release_token t;
       call_dev_err "opal async wait failed (rc %d)\n" [rc]]
      m
| path_status_failure t r msg :
    0 <= t ->
    to_int r = OPAL_ASYNC_COMPLETION ->
    decoded_status msg <> OPAL_SUCCESS ->
    async_op_path m 0
      [entry_call;
       call_opal_async_get_token_interruptible t;
       dispatch_call t r;
       call_opal_async_wait_response (to_u64 t) 0 msg;
       call_opal_async_release_token t]
      m
| path_status_success t r msg :
    0 <= t ->
    to_int r = OPAL_ASYNC_COMPLETION ->
    decoded_status msg = OPAL_SUCCESS ->
    async_op_path m 0
      [entry_call;
       call_opal_async_get_token_interruptible t;
       dispatch_call t r;
       call_opal_async_wait_response (to_u64 t) 0 msg;
       call_opal_async_release_token t]
      (if retlen =? NULL then m else <[retlen := len]> m).

End AsyncOpPaths.

(** ** Sample inputs *)

Module Sample.

(** A completion message whose second parameter holds [status]. *)
Definition msg_of (status : list Z) : opal_msg :=
  {| msg_type := [0; 0; 0; 0]; reserved := [0; 0; 0; 0];
     params := [[0; 0; 0; 0; 0; 0; 0; 0]; status] |}.

(** [OPAL_SUCCESS] and [OPAL_HARDWARE] as 64-bit big-endian values. *)
Definition status_success : list Z := [0; 0; 0; 0; 0; 0; 0; 0].
Definition status_hardware : list Z :=
  [255; 255; 255; 255; 255; 255; 255; 250].

(** A platform that answers [token] to the acquisition, [dispatch] to
    every dispatch and [(wait, msg)] to the wait, whatever came before;
    the stack holds [garbage]. *)
Definition fixed_platform (token dispatch wait : Z) (msg : opal_msg)
    (garbage : Z) : platform :=
  {| get_token := fun _ => token;
     flash_read := fun _ _ _ _ _ _ => dispatch;
     flash_write := fun _ _ _ _ _ _ => dispatch;
     flash_erase := fun _ _ _ _ _ => dispatch;
     wait_response := fun _ _ => (wait, msg);
     phys_addr := fun a => Z.land a 1152921504606846975;
     kzalloc := fun _ => 49152;
     parse_register := fun _ _ => 0;
     indeterminate_int := garbage |}.

(** Firmware that completes with success, fails the completion with
    [OPAL_HARDWARE], rejects the dispatch with [OPAL_PARAMETER], fails the
    wait; a token pool whose wait is interrupted. *)
Definition succeeding : platform :=
  fixed_platform 3 OPAL_ASYNC_COMPLETION 0 (msg_of status_success) 0.
Definition failing_status : platform :=
  fixed_platform 3 OPAL_ASYNC_COMPLETION 0 (msg_of status_hardware) 0.
Definition rejecting : platform :=
  fixed_platform 3 OPAL_PARAMETER 0 (msg_of status_success) 0.
Definition failing_wait : platform :=
  fixed_platform 3 OPAL_ASYNC_COMPLETION (-22) (msg_of status_success) 0.
Definition interrupted : platform :=
  fixed_platform (- ERESTARTSYS) OPAL_ASYNC_COMPLETION 0
                 (msg_of status_success) 0.

(** The device of the driver instance. *)
Definition flash : powernv_flash :=
  {| mtd := set_priv (mtd zeroed_powernv_flash) 49152; id := 1 |}.

(** An erase request [{addr = 0x4000, len = 0x1000}] at address 64. *)
Definition request : erase_info :=
  {| addr := 16384; len := 4096; fail_addr := 0;
     state := MTD_ERASE_PENDING |}.

(** A world with that request, a [size_t] at address 128 holding 7, and
    an empty log. *)
Definition world0 : world :=
  {| w_size_t := {[ 128 := 7 ]}; w_erase := {[ 64 := request ]};
     w_log := [] |}.

(** Device-tree nodes: a complete one and one without ['reg']. *)
Definition node_without_reg : device_node :=
  {[ "ibm,opal-id" := [0; 0; 0; 1];
     "ibm,flash-block-size" := [0; 0; 16; 0] ]}.
Definition node_complete : device_node :=
  <[ "reg" := [0; 0; 0; 0; 4; 0; 0; 0] ]> node_without_reg.

Definition pdev_of (np : device_node) : platform_device :=
  {| dev := {| dev_addr := 32768; of_node := np |} |}.

End Sample.

(** ** Further readings of the log *)

Definition is_get_token (c : call) : bool :=
  match c with
  | call_opal_async_get_token_interruptible _ => true
  | _ => false
  end.

Definition is_dispatch (c : call) : bool :=
  match c with
  | call_opal_flash_read _ _ _ _ _ _
  | call_opal_flash_write _ _ _ _ _ _
  | call_opal_flash_erase _ _ _ _ _ => true
  | _ => false
  end.

Definition is_wait (c : call) : bool :=
  match c with
  | call_opal_async_wait_response _ _ _ => true
  | _ => false
  end.

Definition is_any_release (c : call) : bool :=
  match c with
  | call_opal_async_release_token _ => true
  | _ => false
  end.

(** ** The device description a probe ends with *)

(** The [struct mtd_info] as [powernv_flash_set_driver_info] leaves it for
    device [dev] when the ['reg'] property holds the bytes [reg] and
    ['ibm,flash-block-size'] the bytes [block_size]: the total size is the
    number in the two cells of [reg], the erase size the number in the one
    cell of [block_size], and [priv] is what it was. *)
Definition filled_mtd_info (dev : device) (priv0 : Z)
    (reg block_size : list Z) : mtd_info :=
  {| name := of_node dev !! "name";
     type := MTD_NANDFLASH;
     flags := MTD_CAP_NANDFLASH;
     size := be_to_cpu (take 8 reg);
     erasesize := be_to_cpu (take 4 block_size);
     writesize := 1;
     writebufsize := 1;
     owner_this_module := true;
     _erase := handler_powernv_flash_erase;
     _read := handler_powernv_flash_read;
     _write := handler_powernv_flash_write;
     dev_parent := dev_addr dev;
     priv := priv0 |}.

(** ** Removal *)

(** [powernv_flash_release]: "All resources should be freed
    automatically". *)
Definition powernv_flash_release (pdev : platform_device) : kern Z :=
  mret 0.

(** ** More sample inputs *)

Module Sample2.

(** A platform whose [devm_kzalloc] fails. *)
Definition out_of_memory : platform :=
  {| get_token := get_token Sample.succeeding;
     flash_read := flash_read Sample.succeeding;
     flash_write := flash_write Sample.succeeding;
     flash_erase := flash_erase Sample.succeeding;
     wait_response := wait_response Sample.succeeding;
     phys_addr := phys_addr Sample.succeeding;
     kzalloc := fun _ => NULL;
     parse_register := parse_register Sample.succeeding;
     indeterminate_int := 0 |}.

(** A platform whose MTD core refuses the registration with [-EINVAL]. *)
Definition refusing_registry : platform :=
  {| get_token := get_token Sample.succeeding;
     flash_read := flash_read Sample.succeeding;
     flash_write := flash_write Sample.succeeding;
     flash_erase := flash_erase Sample.succeeding;
     wait_response := wait_response Sample.succeeding;
     phys_addr := phys_addr Sample.succeeding;
     kzalloc := kzalloc Sample.succeeding;
     parse_register := fun _ _ => -22;
     indeterminate_int := 0 |}.

(** A node whose ['reg'] holds a single cell. *)
Definition node_short_reg : device_node :=
  <[ "reg" := [4; 0; 0; 0] ]> Sample.node_without_reg.

(** A node without ['ibm,flash-block-size']. *)
Definition node_without_block_size : device_node :=
  {[ "ibm,opal-id" := [0; 0; 0; 1];
     "reg" := [0; 0; 0; 0; 4; 0; 0; 0] ]}.

(** A completion message whose status has a zero low word and a non-zero
    high word. *)
Definition msg_high_word : opal_msg :=
  Sample.msg_of [0; 0; 0; 1; 0; 0; 0; 0].

End Sample2.

(** * Properties *)

(** ** Running the monad: one equation per primitive *)

Lemma run_bind {A B} (m : kern A) (k : A -> kern B) w a w1 :
  m w = Ret a w1 -> (m ≫= k) w = k a w1.
Proof. intros H. unfold mbind, kern_bind, kbind. now rewrite H. Qed.

Lemma run_bind_oops {A B} (m : kern A) (k : A -> kern B) w w1 :
  m w = Oops w1 -> (m ≫= k) w = Oops w1.
Proof. intros H. unfold mbind, kern_bind, kbind. now rewrite H. Qed.

Lemma run_ret {A} (a : A) w : (mret a : kern A) w = Ret a w.
Proof. reflexivity. Qed.

Lemma after_calls_app w cs1 cs2 :
  after_calls (after_calls w cs1) cs2 = after_calls w (cs1 ++ cs2).
Proof. unfold after_calls; cbn. now rewrite app_assoc. Qed.

Lemma after_calls_nil w : after_calls w [] = w.
Proof. destruct w. unfold after_calls; cbn. now rewrite app_nil_r. Qed.

Lemma after_calls_log w cs : w_log (after_calls w cs) = w_log w ++ cs.
Proof. reflexivity. Qed.

Lemma calls_since_after_calls w cs : calls_since w (after_calls w cs) = cs.
Proof. unfold calls_since, after_calls; cbn. apply drop_app_length. Qed.

Lemma run_emit c w : emit c w = Ret tt (after_calls w [c]).
Proof. reflexivity. Qed.

Lemma run_dev_dbg fmt args w :
  dev_dbg fmt args w = Ret tt (after_calls w [call_dev_dbg fmt args]).
Proof. reflexivity. Qed.

Lemma run_dev_err fmt args w :
  dev_err fmt args w = Ret tt (after_calls w [call_dev_err fmt args]).
Proof. reflexivity. Qed.

Lemma run_get_token P w :
  opal_async_get_token_interruptible P w =
  Ret (get_token P (w_log w))
      (after_calls w
         [call_opal_async_get_token_interruptible (get_token P (w_log w))]).
Proof. reflexivity. Qed.

Lemma run_flash_read P i o b s t w :
  opal_flash_read P i o b s t w =
  Ret (flash_read P (w_log w) i o b s t)
      (after_calls w
         [call_opal_flash_read i o b s t (flash_read P (w_log w) i o b s t)]).
Proof. reflexivity. Qed.

Lemma run_flash_write P i o b s t w :
  opal_flash_write P i o b s t w =
  Ret (flash_write P (w_log w) i o b s t)
      (after_calls w
         [call_opal_flash_write i o b s t
            (flash_write P (w_log w) i o b s t)]).
Proof. reflexivity. Qed.

Lemma run_flash_erase P i o s t w :
  opal_flash_erase P i o s t w =
  Ret (flash_erase P (w_log w) i o s t)
      (after_calls w
         [call_opal_flash_erase i o s t (flash_erase P (w_log w) i o s t)]).
Proof. reflexivity. Qed.

Lemma run_wait_response P t w :
  opal_async_wait_response P t w =
  Ret (wait_response P (w_log w) t)
      (after_calls w
         [call_opal_async_wait_response t
            (fst (wait_response P (w_log w) t))
            (snd (wait_response P (w_log w) t))]).
Proof. reflexivity. Qed.

Lemma run_release_token t w :
  opal_async_release_token t w =
  Ret tt (after_calls w [call_opal_async_release_token t]).
Proof. reflexivity. Qed.

Lemma run_store_size_t p v w :
  p <> NULL ->
  store_size_t p v w =
  Ret tt {| w_size_t := <[p := v]> (w_size_t w);
            w_erase := w_erase w; w_log := w_log w |}.
Proof.
  intros Hp. unfold store_size_t.
  destruct (p =? NULL) eqn:E; [apply Z.eqb_eq in E; contradiction | reflexivity].
Qed.

(** Run the next statement of a sequence. *)
Ltac kstep_with :=
  first
    [ rewrite (run_bind (dev_dbg _ _) _ _ _ _ (run_dev_dbg _ _ _))
    | rewrite (run_bind (dev_err _ _) _ _ _ _ (run_dev_err _ _ _))
    | rewrite (run_bind (opal_async_get_token_interruptible _) _ _ _ _
                        (run_get_token _ _))
    | rewrite (run_bind (opal_flash_read _ _ _ _ _ _) _ _ _ _
                        (run_flash_read _ _ _ _ _ _ _))
    | rewrite (run_bind (opal_flash_write _ _ _ _ _ _) _ _ _ _
                        (run_flash_write _ _ _ _ _ _ _))
    | rewrite (run_bind (opal_flash_erase _ _ _ _ _) _ _ _ _
                        (run_flash_erase _ _ _ _ _ _))
    | rewrite (run_bind (opal_async_wait_response _ _) _ _ _ _
                        (run_wait_response _ _ _))
    | rewrite (run_bind (opal_async_release_token _) _ _ _ _
                        (run_release_token _ _))
    | rewrite (run_bind (emit _) _ _ _ _ (run_emit _ _))
    | rewrite (run_bind (mret _) _ _ _ _ (run_ret _ _)) ].

Ltac kstep :=
  kstep_with; rewrite ?after_calls_app, ?after_calls_log; cbn [app].

Lemma calls_since_world_after w cs m : calls_since w (world_after w cs m) = cs.
Proof. unfold calls_since, world_after; cbn. apply drop_app_length. Qed.

(** ** The bridge follows exactly one of its paths *)

Lemma powernv_flash_async_op_path P info op offset len retlen buf w :
  exists r cs m,
    powernv_flash_async_op P info op offset len retlen buf w =
      Ret r (world_after w cs m) /\
    async_op_path P info op offset len retlen buf (w_size_t w) r cs m.
Proof.
  unfold powernv_flash_async_op.
  kstep. kstep.
  set (t := get_token P _).
  destruct (t <? 0) eqn:Ht.
  { apply Z.ltb_lt in Ht. kstep.
    eexists _, _, _. split; [reflexivity |]. now apply path_no_token. }
  apply Z.ltb_ge in Ht.
  assert (exists r,
    (match op with
     | FLASH_OP_READ =>
         opal_flash_read P (id info) (to_u64 offset) (phys_addr P buf) len
                         (to_u64 t)
     | FLASH_OP_WRITE =>
         opal_flash_write P (id info) (to_u64 offset) (phys_addr P buf) len
                          (to_u64 t)
     | FLASH_OP_ERASE =>
         opal_flash_erase P (id info) (to_u64 offset) len (to_u64 t)
     end)
      (after_calls w [entry_call op offset len;
                      call_opal_async_get_token_interruptible t]) =
    Ret r (after_calls w [entry_call op offset len;
                          call_opal_async_get_token_interruptible t;
                          dispatch_call P info op offset len buf t r]))
    as [r Hr].
  { destruct op; eexists;
      [rewrite run_flash_read | rewrite run_flash_write
      | rewrite run_flash_erase];
      rewrite after_calls_app; reflexivity. }
  fold (entry_call op offset len).
  rewrite (run_bind _ _ _ _ _ Hr).
  destruct (to_int r =? OPAL_ASYNC_COMPLETION) eqn:Hd; cbn [negb].
  2:{ apply Z.eqb_neq in Hd. kstep.
      eexists _, _, _. split; [reflexivity |]. now apply path_rejected. }
  apply Z.eqb_eq in Hd.
  kstep. kstep.
  set (a := wait_response P _ (to_u64 t)).
  destruct (a.1 =? 0) eqn:Hw; cbn [negb].
  2:{ apply Z.eqb_neq in Hw. kstep.
      eexists _, _, _. split; [reflexivity |]. now apply path_wait_failed. }
  apply Z.eqb_eq in Hw. rewrite Hw.
  fold (decoded_status a.2).
  destruct (decoded_status a.2 =? OPAL_SUCCESS) eqn:Hs.
  2:{ apply Z.eqb_neq in Hs. kstep.
      eexists _, _, _. split; [reflexivity |].
      now apply path_status_failure. }
  apply Z.eqb_eq in Hs.
  pose proof (path_status_success P info op offset len retlen buf (w_size_t w)
                t r a.2 Ht Hd Hs) as Hp.
  destruct (retlen =? NULL) eqn:Hn; cbn [negb].
  - eexists _, _, _. split; [reflexivity | exact Hp].
  - apply Z.eqb_neq in Hn.
    unfold mbind, kern_bind, kbind.
    rewrite (run_store_size_t _ _ _ Hn).
    eexists _, _, _. split; [reflexivity | exact Hp].
Qed.

(** The bridge always returns: it has no path into an oops. *)
Lemma powernv_flash_async_op_returns P info op offset len retlen buf w :
  exists r w',
    powernv_flash_async_op P info op offset len retlen buf w = Ret r w'.
Proof.
  destruct (powernv_flash_async_op_path P info op offset len retlen buf w)
    as (r & cs & m & Hrun & _).
  eauto.
Qed.

(** The calls of an invocation are the calls of its path. *)
Lemma bridge_calls_path P info op offset len retlen buf w :
  exists r m,
    powernv_flash_async_op P info op offset len retlen buf w =
      Ret r (world_after w (bridge_calls P info op offset len retlen buf w) m)
    /\ async_op_path P info op offset len retlen buf (w_size_t w) r
         (bridge_calls P info op offset len retlen buf w) m.
Proof.
  destruct (powernv_flash_async_op_path P info op offset len retlen buf w)
    as (r & cs & m & Hrun & Hp).
  unfold bridge_calls. rewrite Hrun. cbn [final_world].
  rewrite calls_since_world_after. eauto.
Qed.

(** ** Reading facts off the calls of a path *)

(** Split a membership in an explicit list of calls into its cases. *)
Ltac split_elem H :=
  repeat match type of H with
         | _ ∈ _ :: _ => apply elem_of_cons in H; destruct H as [H | H]
         | _ ∈ [] => apply elem_of_nil in H; contradiction
         end.

(** Close the cases in which a call cannot be the one asked for. *)
Ltac wrong_call :=
  match goal with
  | H : _ = dispatch_call _ _ ?op _ _ _ _ _ |- _ =>
      unfold dispatch_call in H; destruct op; discriminate H
  | H : dispatch_call _ _ ?op _ _ _ _ _ = _ |- _ =>
      unfold dispatch_call in H; destruct op; discriminate H
  | H : dispatch_rc (call_dev_dbg _ _) = Some _ |- _ => discriminate H
  | H : dispatch_rc (call_dev_err _ _) = Some _ |- _ => discriminate H
  | H : dispatch_rc (entry_call _ _ _) = Some _ |- _ => discriminate H
  | H : dispatch_rc (call_opal_async_get_token_interruptible _) = Some _
    |- _ => discriminate H
  | H : dispatch_rc (call_opal_async_wait_response _ _ _) = Some _ |- _ =>
      discriminate H
  | H : dispatch_rc (call_opal_async_release_token _) = Some _ |- _ =>
      discriminate H
  | H : _ = entry_call _ _ _ |- _ => discriminate H
  | H : @eq call _ _ |- _ => discriminate H
  end.

(** Evaluate the calls of a concrete invocation, then find a call among
    them. *)
Ltac eval_calls :=
  repeat match goal with
         | |- context [bridge_calls ?P ?i ?o ?a ?b ?c ?d ?w] =>
             let l := eval vm_compute in (bridge_calls P i o a b c d w) in
             change (bridge_calls P i o a b c d w) with l
         end.

Ltac find_call :=
  eval_calls;
  repeat first [apply list_elem_of_here | apply list_elem_of_further].

Lemma dispatch_rc_dispatch_call P info op offset len buf t r :
  dispatch_rc (dispatch_call P info op offset len buf t r) = Some (to_int r).
Proof. now destruct op. Qed.

Lemma is_release_dispatch_call P info op offset len buf t r t' :
  is_release t' (dispatch_call P info op offset len buf t r) = false.
Proof. now destruct op. Qed.

Lemma held_step_dispatch_call P info op offset len buf t r held :
  held_step held (dispatch_call P info op offset len buf t r) = held.
Proof. now destruct op. Qed.

(** ** C1: the token on the rejected-dispatch path *)

(** Where the dispatch is accepted, the token is released exactly once and
    none is held when the bridge returns. *)
Lemma accepted_dispatch_releases_token P info op offset len retlen buf w t :
  token_acquired t (bridge_calls P info op offset len retlen buf w) ->
  dispatch_accepted (bridge_calls P info op offset len retlen buf w) ->
  count_calls (is_release t)
              (bridge_calls P info op offset len retlen buf w) = 1%nat /\
  held_tokens (bridge_calls P info op offset len retlen buf w) = [].
Proof.
  destruct (bridge_calls_path P info op offset len retlen buf w)
    as (r & m & _ & Hp).
  remember (bridge_calls P info op offset len retlen buf w) as cs eqn:Ecs.
  clear Ecs.
  intros [Hacq Ht] (c & Hc & Hrc).
  destruct Hp as [t0 Ht0 | t0 r0 Ht0 Hr0 | t0 r0 rc msg Ht0 Hr0 Hw
                 | t0 r0 msg Ht0 Hr0 Hs | t0 r0 msg Ht0 Hr0 Hs].
  - split_elem Hacq; try wrong_call.
    injection Hacq as ->. lia.
  - split_elem Hc; subst c; try wrong_call.
    rewrite dispatch_rc_dispatch_call in Hrc. congruence.
  - split_elem Hacq; try wrong_call. injection Hacq as ->.
    unfold count_calls, held_tokens. cbn.
    rewrite is_release_dispatch_call, held_step_dispatch_call, Z.eqb_refl.
    destruct (t0 <? 0) eqn:E; [apply Z.ltb_lt in E; lia |].
    cbn. now rewrite Z.eqb_refl.
  - split_elem Hacq; try wrong_call. injection Hacq as ->.
    unfold count_calls, held_tokens. cbn.
    rewrite is_release_dispatch_call, held_step_dispatch_call, Z.eqb_refl.
    destruct (t0 <? 0) eqn:E; [apply Z.ltb_lt in E; lia |].
    cbn. now rewrite Z.eqb_refl.
  - split_elem Hacq; try wrong_call. injection Hacq as ->.
    unfold count_calls, held_tokens. cbn.
    rewrite is_release_dispatch_call, held_step_dispatch_call, Z.eqb_refl.
    destruct (t0 <? 0) eqn:E; [apply Z.ltb_lt in E; lia |].
    cbn. now rewrite Z.eqb_refl.
Qed.

(** C1 (the code departs from the claim).  The claim: whenever a token is
    acquired it is released exactly once before the bridge returns, also
    when the firmware rejects the dispatch.  The code: on the
    rejected-dispatch path the bridge returns [-EIO] without a single
    release of the token it acquired, and the token is still held when it
    returns. *)
Theorem C1_rejected_dispatch_keeps_token
    P info op offset len retlen buf w t :
  token_acquired t (bridge_calls P info op offset len retlen buf w) ->
  dispatch_rejected (bridge_calls P info op offset len retlen buf w) ->
  (exists w',
     powernv_flash_async_op P info op offset len retlen buf w =
       Ret (- EIO) w') /\
  count_calls (is_release t)
              (bridge_calls P info op offset len retlen buf w) = 0%nat /\
  held_tokens (bridge_calls P info op offset len retlen buf w) = [t].
Proof.
  destruct (bridge_calls_path P info op offset len retlen buf w)
    as (r & m & Hrun & Hp).
  remember (bridge_calls P info op offset len retlen buf w) as cs eqn:Ecs.
  clear Ecs.
  intros [Hacq Ht] (c & rc' & Hc & Hrc & Hne).
  destruct Hp as [t0 Ht0 | t0 r0 Ht0 Hr0 | t0 r0 rc msg Ht0 Hr0 Hw
                 | t0 r0 msg Ht0 Hr0 Hs | t0 r0 msg Ht0 Hr0 Hs].
  - split_elem Hacq; try wrong_call.
    injection Hacq as ->. lia.
  - split_elem Hacq; try wrong_call. injection Hacq as ->.
    split; [eauto |].
    unfold count_calls, held_tokens. cbn.
    rewrite is_release_dispatch_call, held_step_dispatch_call.
    destruct (t0 <? 0) eqn:E; [apply Z.ltb_lt in E; lia |].
    now cbn.
  - split_elem Hc; subst c; try wrong_call.
    rewrite dispatch_rc_dispatch_call in Hrc. congruence.
  - split_elem Hc; subst c; try wrong_call.
    rewrite dispatch_rc_dispatch_call in Hrc. congruence.
  - split_elem Hc; subst c; try wrong_call.
    rewrite dispatch_rc_dispatch_call in Hrc. congruence.
Qed.

(** The rejected erase of the spec's scenario: token 3 is acquired, the
    firmware answers [OPAL_PARAMETER], and token 3 is never released. *)
Lemma C1_rejected_dispatch_keeps_token_witness :
  (exists w',
     powernv_flash_async_op Sample.rejecting Sample.flash FLASH_OP_ERASE
       16384 4096 NULL NULL Sample.world0 = Ret (- EIO) w') /\
  count_calls (is_release 3)
    (bridge_calls Sample.rejecting Sample.flash FLASH_OP_ERASE
       16384 4096 NULL NULL Sample.world0) = 0%nat /\
  held_tokens
    (bridge_calls Sample.rejecting Sample.flash FLASH_OP_ERASE
       16384 4096 NULL NULL Sample.world0) = [3].
Proof.
  apply (C1_rejected_dispatch_keeps_token Sample.rejecting Sample.flash
           FLASH_OP_ERASE 16384 4096 NULL NULL Sample.world0 3).
  - split; [find_call | lia].
  - exists (call_opal_flash_erase 1 16384 4096 3 (-1)), (-1).
    split; [find_call | split; [reflexivity | discriminate]].
Defined.

(** ** C2: the return value after a failed completion *)

(** C2 (the code departs from the claim).  The claim: when the dispatch is
    accepted, the wait succeeds and the decoded completion status is not
    the success status, the bridge returns [-EIO].  The code: it stores
    [-EIO] in [rc] and then executes [return 0], so the caller sees
    success. *)
Theorem C2_failed_completion_returns_zero
    P info op offset len retlen buf w status :
  completed_with status (bridge_calls P info op offset len retlen buf w) ->
  status <> OPAL_SUCCESS ->
  exists w',
    powernv_flash_async_op P info op offset len retlen buf w = Ret 0 w' /\
    0 <> - EIO.
Proof.
  intros (t & msg & Hc & Hst) Hne.
  destruct (bridge_calls_path P info op offset len retlen buf w)
    as (r & m & Hrun & Hp).
  remember (bridge_calls P info op offset len retlen buf w) as cs eqn:Ecs.
  clear Ecs.
  destruct Hp as [t0 Ht0 | t0 r0 Ht0 Hr0 | t0 r0 rc msg0 Ht0 Hr0 Hw
                 | t0 r0 msg0 Ht0 Hr0 Hs | t0 r0 msg0 Ht0 Hr0 Hs];
    split_elem Hc; try wrong_call.
  - injection Hc as -> <- ->. congruence.
  - eexists. split; [exact Hrun | discriminate].
  - eexists. split; [exact Hrun | discriminate].
Qed.

(** The write of the spec's scenario, 64 bytes at [0x2000], completed by
    the firmware with [OPAL_HARDWARE]: the bridge returns 0. *)
Lemma C2_failed_completion_returns_zero_witness :
  exists w',
    powernv_flash_async_op Sample.failing_status Sample.flash FLASH_OP_WRITE
      8192 64 128 4096 Sample.world0 = Ret 0 w' /\
    0 <> - EIO.
Proof.
  apply (C2_failed_completion_returns_zero Sample.failing_status
           Sample.flash FLASH_OP_WRITE 8192 64 128 4096 Sample.world0
           OPAL_HARDWARE).
  - exists 3, (Sample.msg_of Sample.status_hardware).
    split; [find_call | reflexivity].
  - discriminate.
Defined.

(** ** C3: an interrupted token acquisition *)

(** The claim as the spec words it is false on the code: an acquisition
    interrupted by a signal does not make the bridge fail with the
    [Interrupted] kind. *)
Lemma C3_interrupted_kind_counterexample :
  ~ (forall P info op offset len retlen buf w r w',
       powernv_flash_async_op P info op offset len retlen buf w = Ret r w' ->
       call_opal_async_get_token_interruptible (- ERESTARTSYS)
         ∈ bridge_calls P info op offset len retlen buf w ->
       error_kind r = Some Interrupted /\
       held_tokens (bridge_calls P info op offset len retlen buf w) = []).
Proof.
  intros H.
  destruct (H Sample.interrupted Sample.flash FLASH_OP_READ 4096 256 128 4096
              Sample.world0 (- ENOMEM)
              (after_calls Sample.world0
                 [entry_call FLASH_OP_READ 4096 256;
                  call_opal_async_get_token_interruptible (- ERESTARTSYS);
                  call_dev_err "Failed to get an async token\n" []]))
    as [Hkind _].
  - reflexivity.
  - find_call.
  - discriminate Hkind.
Qed.

(** C3 (amended).  If token acquisition is interrupted (the acquire-token
    primitive returns [-ERESTARTSYS]), the bridge fails with [-ENOMEM], the
    out-of-memory / [ResourceExhausted] kind it also reports for an
    exhausted pool and not a distinct kind; it holds no token, dispatches
    nothing and releases nothing, and it leaves [retlen] alone. *)
Theorem C3_interrupted_acquisition_reports_enomem
    P info op offset len retlen buf w :
  call_opal_async_get_token_interruptible (- ERESTARTSYS)
    ∈ bridge_calls P info op offset len retlen buf w ->
  (exists w',
     powernv_flash_async_op P info op offset len retlen buf w =
       Ret (- ENOMEM) w' /\
     w_size_t w' = w_size_t w) /\
  error_kind (- ENOMEM) = Some ResourceExhausted /\
  bridge_calls P info op offset len retlen buf w =
    [entry_call op offset len;
     call_opal_async_get_token_interruptible (- ERESTARTSYS);
     call_dev_err "Failed to get an async token\n" []] /\
  held_tokens (bridge_calls P info op offset len retlen buf w) = [].
Proof.
  intros Hc.
  destruct (bridge_calls_path P info op offset len retlen buf w)
    as (r & m & Hrun & Hp).
  remember (bridge_calls P info op offset len retlen buf w) as cs eqn:Ecs.
  clear Ecs.
  destruct Hp as [t0 Ht0 | t0 r0 Ht0 Hr0 | t0 r0 rc msg0 Ht0 Hr0 Hw
                 | t0 r0 msg0 Ht0 Hr0 Hs | t0 r0 msg0 Ht0 Hr0 Hs];
    split_elem Hc; try wrong_call;
    injection Hc as <-; try (unfold ERESTARTSYS in Ht0; lia).
  split; [| split; [reflexivity | split; reflexivity]].
  eexists. split; [exact Hrun | reflexivity].
Qed.

Lemma C3_interrupted_acquisition_reports_enomem_witness :
  (exists w',
     powernv_flash_async_op Sample.interrupted Sample.flash FLASH_OP_READ
       4096 256 128 4096 Sample.world0 = Ret (- ENOMEM) w' /\
     w_size_t w' = w_size_t Sample.world0) /\
  error_kind (- ENOMEM) = Some ResourceExhausted /\
  bridge_calls Sample.interrupted Sample.flash FLASH_OP_READ
    4096 256 128 4096 Sample.world0 =
    [entry_call FLASH_OP_READ 4096 256;
     call_opal_async_get_token_interruptible (- ERESTARTSYS);
     call_dev_err "Failed to get an async token\n" []] /\
  held_tokens
    (bridge_calls Sample.interrupted Sample.flash FLASH_OP_READ
       4096 256 128 4096 Sample.world0) = [].
Proof.
  apply (C3_interrupted_acquisition_reports_enomem Sample.interrupted
           Sample.flash FLASH_OP_READ 4096 256 128 4096 Sample.world0).
  find_call.
Defined.

(** ** C6 and C7: the [retlen] out-parameter *)

(** C6.  With a non-null [retlen], if the decoded completion status is the
    success status, the bridge returns 0 and [*retlen] equals [len]. *)
Theorem C6_success_status_stores_len
    P info op offset len retlen buf w :
  retlen <> NULL ->
  completed_with OPAL_SUCCESS
                 (bridge_calls P info op offset len retlen buf w) ->
  exists w',
    powernv_flash_async_op P info op offset len retlen buf w = Ret 0 w' /\
    w_size_t w' = <[retlen := len]> (w_size_t w) /\
    w_size_t w' !! retlen = Some len.
Proof.
  intros Hnull (t & msg & Hc & Hst).
  destruct (bridge_calls_path P info op offset len retlen buf w)
    as (r & m & Hrun & Hp).
  remember (bridge_calls P info op offset len retlen buf w) as cs eqn:Ecs.
  clear Ecs.
  destruct Hp as [t0 Ht0 | t0 r0 Ht0 Hr0 | t0 r0 rc msg0 Ht0 Hr0 Hw
                 | t0 r0 msg0 Ht0 Hr0 Hs | t0 r0 msg0 Ht0 Hr0 Hs];
    split_elem Hc; try wrong_call.
  - injection Hc as -> <- ->. congruence.
  - injection Hc as -> ->. congruence.
  - apply Z.eqb_neq in Hnull. rewrite Hnull in Hrun.
    eexists. split; [exact Hrun |]. cbn.
    split; [reflexivity | apply lookup_insert_eq].
Qed.

(** The read of the spec's scenario: 256 bytes at [0x1000], completed with
    success; [retlen] points to the [size_t] at address 128. *)
Lemma C6_success_status_stores_len_witness :
  exists w',
    powernv_flash_async_op Sample.succeeding Sample.flash FLASH_OP_READ
      4096 256 128 4096 Sample.world0 = Ret 0 w' /\
    w_size_t w' = <[128 := 256]> (w_size_t Sample.world0) /\
    w_size_t w' !! 128 = Some 256.
Proof.
  apply (C6_success_status_stores_len Sample.succeeding Sample.flash
           FLASH_OP_READ 4096 256 128 4096 Sample.world0).
  - discriminate.
  - exists 3, (Sample.msg_of Sample.status_success).
    split; [find_call | reflexivity].
Defined.

(** C7.  An invocation that misses the success-status branch (failed token
    acquisition, rejected dispatch, failed wait, or a completion status
    other than success) returns with every [size_t] object, so also
    [*retlen], as it was. *)
Theorem C7_retlen_untouched_off_success_branch
    P info op offset len retlen buf w :
  token_failed (bridge_calls P info op offset len retlen buf w) \/
  dispatch_rejected (bridge_calls P info op offset len retlen buf w) \/
  wait_failed (bridge_calls P info op offset len retlen buf w) \/
  (exists status,
     completed_with status (bridge_calls P info op offset len retlen buf w)
     /\ status <> OPAL_SUCCESS) ->
  exists r w',
    powernv_flash_async_op P info op offset len retlen buf w = Ret r w' /\
    w_size_t w' = w_size_t w.
Proof.
  intros H.
  destruct (bridge_calls_path P info op offset len retlen buf w)
    as (r & m & Hrun & Hp).
  remember (bridge_calls P info op offset len retlen buf w) as cs eqn:Ecs.
  clear Ecs.
  destruct Hp as [t0 Ht0 | t0 r0 Ht0 Hr0 | t0 r0 rc msg0 Ht0 Hr0 Hw
                 | t0 r0 msg0 Ht0 Hr0 Hs | t0 r0 msg0 Ht0 Hr0 Hs];
    try (eexists _, _; split; [exact Hrun | reflexivity]).
  exfalso.
  destruct H as [(t & Hc & Ht) | [(c & rc & Hc & Hrc & Hne)
                | [(t & rc & msg & Hc & Hne)
                | (status & (t & msg & Hc & Hst) & Hne)]]].
  - split_elem Hc; try wrong_call. injection Hc as ->. lia.
  - split_elem Hc; subst c; try wrong_call.
    rewrite dispatch_rc_dispatch_call in Hrc. congruence.
  - split_elem Hc; try wrong_call. injection Hc as -> -> ->. congruence.
  - split_elem Hc; try wrong_call. injection Hc as -> ->. congruence.
Qed.

(** The write of the spec's scenario with a failing completion status:
    the [size_t] at [retlen] keeps its 7. *)
Lemma C7_retlen_untouched_off_success_branch_witness :
  exists r w',
    powernv_flash_async_op Sample.failing_status Sample.flash FLASH_OP_WRITE
      8192 64 128 4096 Sample.world0 = Ret r w' /\
    w_size_t w' = w_size_t Sample.world0.
Proof.
  apply (C7_retlen_untouched_off_success_branch Sample.failing_status
           Sample.flash FLASH_OP_WRITE 8192 64 128 4096 Sample.world0).
  right. right. right. exists OPAL_HARDWARE. split; [| discriminate].
  exists 3, (Sample.msg_of Sample.status_hardware).
  split; [find_call | reflexivity].
Defined.

(** ** C9: the values the bridge returns *)

(** The bridge on a platform whose answers are fixed, answer by answer. *)
Lemma bridge_on_fixed_platform token dispatch wait msg garbage
    info op offset len retlen buf w :
  exists w',
    powernv_flash_async_op
      (Sample.fixed_platform token dispatch wait msg garbage)
      info op offset len retlen buf w =
    Ret (if token <? 0 then - ENOMEM
         else if negb (to_int dispatch =? OPAL_ASYNC_COMPLETION) then - EIO
         else if negb (wait =? 0) then - EIO
         else 0) w'.
Proof.
  unfold powernv_flash_async_op.
  kstep. kstep. cbn [get_token Sample.fixed_platform].
  destruct (token <? 0).
  { kstep. eexists. reflexivity. }
  assert (Hd : exists w1,
    (match op with
     | FLASH_OP_READ =>
         opal_flash_read (Sample.fixed_platform token dispatch wait msg garbage)
           (id info) (to_u64 offset)
           (phys_addr (Sample.fixed_platform token dispatch wait msg garbage)
                      buf) len (to_u64 token)
     | FLASH_OP_WRITE =>
         opal_flash_write
           (Sample.fixed_platform token dispatch wait msg garbage)
           (id info) (to_u64 offset)
           (phys_addr (Sample.fixed_platform token dispatch wait msg garbage)
                      buf) len (to_u64 token)
     | FLASH_OP_ERASE =>
         opal_flash_erase
           (Sample.fixed_platform token dispatch wait msg garbage)
           (id info) (to_u64 offset) len (to_u64 token)
     end)
      (after_calls w
         [call_dev_dbg "%s(op=%d, offset=0x%llx, len=%zu)\n"
                       [flash_op_value op; offset; len];
          call_opal_async_get_token_interruptible token]) =
    Ret dispatch w1).
  { destruct op; eexists; reflexivity. }
  destruct Hd as [w1 Hd]. rewrite (run_bind _ _ _ _ _ Hd).
  destruct (to_int dispatch =? OPAL_ASYNC_COMPLETION); cbn [negb].
  2:{ kstep. eexists. reflexivity. }
  kstep. kstep. cbn [wait_response Sample.fixed_platform fst snd].
  destruct (wait =? 0); cbn [negb].
  2:{ kstep. eexists. reflexivity. }
  destruct (to_int (be_to_cpu (msg_param msg 1)) =? OPAL_SUCCESS).
  - destruct (retlen =? NULL) eqn:Hn; cbn [negb].
    + eexists. reflexivity.
    + unfold mbind, kern_bind, kbind, store_size_t. rewrite Hn.
      eexists. reflexivity.
  - eexists. reflexivity.
Qed.

(** C9.  The bridge returns one of 0, [-ENOMEM] and [-EIO] and nothing
    else.  [powernv_flash_read] and [powernv_flash_write] are the bridge
    with [FLASH_OP_READ] and [FLASH_OP_WRITE] and every other argument
    passed on, so they return the same three values.  Each of the three is
    returned by the bridge for every operation, by the read and by the
    write.  What the collaborators answer is never the return value: a
    failed acquisition gives [-ENOMEM] whatever negative value the pool
    returned, a rejected dispatch gives [-EIO] whatever the firmware
    returned, a failed wait gives [-EIO] whatever the wait returned, and
    a completion gives 0 whatever status the message carries. *)
Theorem C9_return_values :
  (forall P info op offset len retlen buf w,
     exists r w',
       powernv_flash_async_op P info op offset len retlen buf w = Ret r w' /\
       (r = 0 \/ r = - ENOMEM \/ r = - EIO)) /\
  (forall P info from len retlen buf w,
     powernv_flash_read P info from len retlen buf w =
     powernv_flash_async_op P info FLASH_OP_READ from len retlen buf w) /\
  (forall P info to len retlen buf w,
     powernv_flash_write P info to len retlen buf w =
     powernv_flash_async_op P info FLASH_OP_WRITE to len retlen buf w) /\
  (forall P info from len retlen buf w,
     exists r w',
       powernv_flash_read P info from len retlen buf w = Ret r w' /\
       (r = 0 \/ r = - ENOMEM \/ r = - EIO)) /\
  (forall P info to len retlen buf w,
     exists r w',
       powernv_flash_write P info to len retlen buf w = Ret r w' /\
       (r = 0 \/ r = - ENOMEM \/ r = - EIO)) /\
  (forall op,
     (exists w',
        powernv_flash_async_op Sample.succeeding Sample.flash op
          4096 256 128 4096 Sample.world0 = Ret 0 w') /\
     (exists w',
        powernv_flash_async_op Sample.interrupted Sample.flash op
          4096 256 128 4096 Sample.world0 = Ret (- ENOMEM) w') /\
     (exists w',
        powernv_flash_async_op Sample.rejecting Sample.flash op
          4096 256 128 4096 Sample.world0 = Ret (- EIO) w') /\
     (exists w',
        powernv_flash_async_op Sample.failing_wait Sample.flash op
          4096 256 128 4096 Sample.world0 = Ret (- EIO) w')) /\
  ((exists w',
      powernv_flash_read Sample.succeeding Sample.flash 4096 256 128 4096
        Sample.world0 = Ret 0 w') /\
   (exists w',
      powernv_flash_read Sample.interrupted Sample.flash 4096 256 128 4096
        Sample.world0 = Ret (- ENOMEM) w') /\
   (exists w',
      powernv_flash_read Sample.rejecting Sample.flash 4096 256 128 4096
        Sample.world0 = Ret (- EIO) w') /\
   (exists w',
      powernv_flash_read Sample.failing_wait Sample.flash 4096 256 128 4096
        Sample.world0 = Ret (- EIO) w')) /\
  ((exists w',
      powernv_flash_write Sample.succeeding Sample.flash 8192 64 128 4096
        Sample.world0 = Ret 0 w') /\
   (exists w',
      powernv_flash_write Sample.interrupted Sample.flash 8192 64 128 4096
        Sample.world0 = Ret (- ENOMEM) w') /\
   (exists w',
      powernv_flash_write Sample.rejecting Sample.flash 8192 64 128 4096
        Sample.world0 = Ret (- EIO) w') /\
   (exists w',
      powernv_flash_write Sample.failing_wait Sample.flash 8192 64 128 4096
        Sample.world0 = Ret (- EIO) w')) /\
  (forall token dispatch wait msg info op offset len retlen buf w,
     0 <= token \/
     exists w',
       powernv_flash_async_op
         (Sample.fixed_platform token dispatch wait msg 0)
         info op offset len retlen buf w = Ret (- ENOMEM) w') /\
  (forall dispatch wait msg info op offset len retlen buf w,
     to_int dispatch = OPAL_ASYNC_COMPLETION \/
     exists w',
       powernv_flash_async_op (Sample.fixed_platform 3 dispatch wait msg 0)
         info op offset len retlen buf w = Ret (- EIO) w') /\
  (forall wait msg info op offset len retlen buf w,
     wait = 0 \/
     exists w',
       powernv_flash_async_op
         (Sample.fixed_platform 3 OPAL_ASYNC_COMPLETION wait msg 0)
         info op offset len retlen buf w = Ret (- EIO) w') /\
  (forall msg info op offset len retlen buf w,
     exists w',
       powernv_flash_async_op
         (Sample.fixed_platform 3 OPAL_ASYNC_COMPLETION 0 msg 0)
         info op offset len retlen buf w = Ret 0 w').
Proof.
  assert (Hall : forall P info op offset len retlen buf w,
     exists r w',
       powernv_flash_async_op P info op offset len retlen buf w = Ret r w' /\
       (r = 0 \/ r = - ENOMEM \/ r = - EIO)).
  { intros P info op offset len retlen buf w.
    destruct (powernv_flash_async_op_path P info op offset len retlen buf w)
      as (r & cs & m & Hrun & Hp).
    exists r, (world_after w cs m). split; [exact Hrun |].
    destruct Hp; auto. }
  split; [exact Hall |].
  split; [reflexivity |].
  split; [reflexivity |].
  split; [intros; apply Hall |].
  split; [intros; apply Hall |].
  split.
  { intros op.
    repeat split; destruct op; eexists; vm_compute; reflexivity. }
  split; [repeat split; eexists; vm_compute; reflexivity |].
  split; [repeat split; eexists; vm_compute; reflexivity |].
  split.
  { intros token dispatch wait msg info op offset len retlen buf w.
    destruct (Z.lt_ge_cases token 0) as [Hlt | Hge]; [right | now left].
    destruct (bridge_on_fixed_platform token dispatch wait msg 0
                info op offset len retlen buf w) as [w' Hrun].
    apply Z.ltb_lt in Hlt. rewrite Hlt in Hrun. eauto. }
  split.
  { intros dispatch wait msg info op offset len retlen buf w.
    destruct (Z.eq_dec (to_int dispatch) OPAL_ASYNC_COMPLETION)
      as [He | Hne]; [now left | right].
    destruct (bridge_on_fixed_platform 3 dispatch wait msg 0
                info op offset len retlen buf w) as [w' Hrun].
    apply Z.eqb_neq in Hne. rewrite Hne in Hrun. eauto. }
  split.
  { intros wait msg info op offset len retlen buf w.
    destruct (Z.eq_dec wait 0) as [He | Hne]; [now left | right].
    destruct (bridge_on_fixed_platform 3 OPAL_ASYNC_COMPLETION wait msg 0
                info op offset len retlen buf w) as [w' Hrun].
    apply Z.eqb_neq in Hne. rewrite Hne in Hrun. eauto. }
  intros msg info op offset len retlen buf w.
  exact (bridge_on_fixed_platform 3 OPAL_ASYNC_COMPLETION 0 msg 0
           info op offset len retlen buf w).
Qed.

(** ** Erase *)

Lemma run_load_erase erase e w :
  w_erase w !! erase = Some e -> load_erase erase w = Ret e w.
Proof. intros H. unfold load_erase. now rewrite H. Qed.

Lemma run_update_erase erase f e w :
  w_erase w !! erase = Some e ->
  update_erase erase f w = Ret tt (with_erase w erase (f e)).
Proof. intros H. unfold update_erase. now rewrite H. Qed.

Lemma with_erase_lookup w erase e :
  w_erase (with_erase w erase e) !! erase = Some e.
Proof. apply lookup_insert_eq. Qed.

Lemma with_erase_twice w erase e1 e2 :
  with_erase (with_erase w erase e1) erase e2 = with_erase w erase e2.
Proof. unfold with_erase; cbn. now rewrite insert_insert_eq. Qed.

Lemma run_mtd_erase_callback erase e w :
  w_erase w !! erase = Some e ->
  mtd_erase_callback erase w =
  Ret tt (after_calls w [call_mtd_erase_callback erase e]).
Proof.
  intros H. unfold mtd_erase_callback.
  now rewrite (run_bind _ _ _ _ _ (run_load_erase _ _ _ H)).
Qed.

(** No path of the bridge notifies an erase completion or registers a
    device. *)
Lemma async_op_path_no_callback P info op offset len retlen buf m r cs m' :
  async_op_path P info op offset len retlen buf m r cs m' ->
  count_calls is_erase_callback cs = 0%nat.
Proof. intros Hp. destruct Hp; destruct op; reflexivity. Qed.

(** [powernv_flash_erase], statement by statement: the request is marked
    [MTD_ERASING], the bridge runs in that world with [FLASH_OP_ERASE] and
    two null pointers, the request gets its final state, the callback is
    the last call, and 0 is returned. *)
Lemma powernv_flash_erase_run P info erase e w :
  w_erase w !! erase = Some e ->
  let w1 := with_erase w erase (set_state e MTD_ERASING) in
  exists rc cs m,
    powernv_flash_async_op P info FLASH_OP_ERASE (addr e) (len e) NULL NULL
      w1 = Ret rc (world_after w1 cs m) /\
    async_op_path P info FLASH_OP_ERASE (addr e) (len e) NULL NULL
      (w_size_t w) rc cs m /\
    powernv_flash_erase P info erase w =
      Ret 0 (after_calls
               (with_erase (world_after w1 cs m) erase (erase_outcome e rc))
               [call_mtd_erase_callback erase (erase_outcome e rc)]).
Proof.
  intros He w1.
  destruct (powernv_flash_async_op_path P info FLASH_OP_ERASE (addr e) (len e)
              NULL NULL w1) as (rc & cs & m & Hrun & Hp).
  exists rc, cs, m. split; [exact Hrun |]. split; [exact Hp |].
  unfold powernv_flash_erase.
  rewrite (run_bind _ _ _ _ _ (run_update_erase _ _ _ _ He)).
  cbv beta. fold w1.
  assert (Hw1 : w_erase w1 !! erase = Some (set_state e MTD_ERASING))
    by apply with_erase_lookup.
  rewrite (run_bind _ _ _ _ _ (run_load_erase _ _ _ Hw1)).
  change (addr (set_state e MTD_ERASING)) with (addr e).
  change (len (set_state e MTD_ERASING)) with (len e).
  rewrite (run_bind _ _ _ _ _ Hrun).
  set (w2 := world_after w1 cs m).
  assert (Hw2 : w_erase w2 !! erase = Some (set_state e MTD_ERASING))
    by apply with_erase_lookup.
  assert (Hupd :
    (if negb (rc =? 0)
     then update_erase erase (fun e0 => set_fail_addr e0 (addr e0)) ;;
          update_erase erase (fun e0 => set_state e0 MTD_ERASE_FAILED)
     else update_erase erase (fun e0 => set_state e0 MTD_ERASE_DONE)) w2 =
    Ret tt (with_erase w2 erase (erase_outcome e rc))).
  { unfold erase_outcome. destruct (rc =? 0); cbn [negb].
    - now rewrite (run_update_erase _ _ _ _ Hw2).
    - rewrite (run_bind _ _ _ _ _ (run_update_erase _ _ _ _ Hw2)).
      cbv beta.
      rewrite (run_update_erase _ _ _ _ (with_erase_lookup _ _ _)).
      now rewrite with_erase_twice. }
  rewrite (run_bind _ _ _ _ _ Hupd).
  rewrite (run_bind _ _ _ _ _
             (run_mtd_erase_callback _ _ _ (with_erase_lookup _ _ _))).
  reflexivity.
Qed.

Lemma erase_calls_run P info erase e w :
  w_erase w !! erase = Some e ->
  exists rc cs m,
    async_op_path P info FLASH_OP_ERASE (addr e) (len e) NULL NULL
      (w_size_t w) rc cs m /\
    erase_calls P info erase w =
      cs ++ [call_mtd_erase_callback erase (erase_outcome e rc)].
Proof.
  intros He.
  destruct (powernv_flash_erase_run P info erase e w He)
    as (rc & cs & m & _ & Hp & Hrun).
  exists rc, cs, m. split; [exact Hp |].
  unfold erase_calls. rewrite Hrun.
  unfold final_world, calls_since, after_calls, with_erase, world_after.
  cbn. rewrite <- app_assoc. apply drop_app_length.
Qed.

(** C4.  For an erase request [{addr, len}], [powernv_flash_erase] marks
    the request [MTD_ERASING] and runs the bridge in that world with
    [FLASH_OP_ERASE], the request's [addr] and [len], and null [retlen] and
    [buf].  If the bridge returns non-zero the request ends
    [MTD_ERASE_FAILED] with [fail_addr = addr]; if it returns 0 the request
    ends [MTD_ERASE_DONE].  Either way [mtd_erase_callback] is called
    exactly once, as the last call before the function returns, and finds
    the request in its final state. *)
Theorem C4_erase_state_and_notification P info erase e w :
  w_erase w !! erase = Some e ->
  exists rc w2 r w' e',
    powernv_flash_async_op P info FLASH_OP_ERASE (addr e) (len e) NULL NULL
      (with_erase w erase (set_state e MTD_ERASING)) = Ret rc w2 /\
    powernv_flash_erase P info erase w = Ret r w' /\
    w_erase w' !! erase = Some e' /\
    (rc <> 0 -> state e' = MTD_ERASE_FAILED /\ fail_addr e' = addr e) /\
    (rc = 0 -> state e' = MTD_ERASE_DONE) /\
    w_log w' = w_log w2 ++ [call_mtd_erase_callback erase e'] /\
    count_calls is_erase_callback (erase_calls P info erase w) = 1%nat.
Proof.
  intros He.
  destruct (erase_calls_run P info erase e w He)
    as (rc0 & cs0 & m0 & Hp0 & Hcalls).
  destruct (powernv_flash_erase_run P info erase e w He)
    as (rc & cs & m & Hbridge & Hp & Hrun).
  eexists rc, _, 0, _, (erase_outcome e rc).
  split; [exact Hbridge |]. split; [exact Hrun |].
  split; [apply with_erase_lookup |].
  split; [| split; [| split; [reflexivity |]]].
  - intros Hrc. unfold erase_outcome.
    apply Z.eqb_neq in Hrc. rewrite Hrc. now cbn.
  - intros ->. reflexivity.
  - rewrite Hcalls. unfold count_calls.
    rewrite List.filter_app, length_app.
    fold (count_calls is_erase_callback cs0).
    now rewrite (async_op_path_no_callback _ _ _ _ _ _ _ _ _ _ _ Hp0).
Qed.

(** The erase of the spec's scenario, [{addr = 0x4000, len = 0x1000}], with
    the dispatch rejected. *)
Lemma C4_erase_state_and_notification_witness :
  exists rc w2 r w' e',
    powernv_flash_async_op Sample.rejecting Sample.flash FLASH_OP_ERASE
      16384 4096 NULL NULL
      (with_erase Sample.world0 64 (set_state Sample.request MTD_ERASING)) =
      Ret rc w2 /\
    powernv_flash_erase Sample.rejecting Sample.flash 64 Sample.world0 =
      Ret r w' /\
    w_erase w' !! 64 = Some e' /\
    (rc <> 0 -> state e' = MTD_ERASE_FAILED /\ fail_addr e' = 16384) /\
    (rc = 0 -> state e' = MTD_ERASE_DONE) /\
    w_log w' = w_log w2 ++ [call_mtd_erase_callback 64 e'] /\
    count_calls is_erase_callback
      (erase_calls Sample.rejecting Sample.flash 64 Sample.world0) = 1%nat.
Proof.
  apply (C4_erase_state_and_notification Sample.rejecting Sample.flash 64
           Sample.request Sample.world0).
  reflexivity.
Defined.

(** C5.  [powernv_flash_erase] returns 0 for every request, whatever the
    bridge returned. *)
Theorem C5_erase_returns_zero P info erase w :
  is_Some (w_erase w !! erase) ->
  exists w', powernv_flash_erase P info erase w = Ret 0 w'.
Proof.
  intros [e He].
  destruct (powernv_flash_erase_run P info erase e w He)
    as (rc & cs & m & _ & _ & Hrun).
  eauto.
Qed.

(** An erase whose dispatch the firmware rejects still returns 0. *)
Lemma C5_erase_returns_zero_witness :
  exists w',
    powernv_flash_erase Sample.rejecting Sample.flash 64 Sample.world0 =
      Ret 0 w'.
Proof.
  apply (C5_erase_returns_zero Sample.rejecting Sample.flash 64
           Sample.world0).
  exists Sample.request. reflexivity.
Defined.

(** ** C10: a null [retlen] *)

(** C10.  With a null [retlen] the bridge returns, on every path, without
    a store: no oops and every [size_t] object as it was.  The erase path
    calls the bridge with null [retlen] and null [buf] and itself returns
    with every [size_t] object as it was. *)
Theorem C10_null_retlen_is_never_written
    P info op offset nbytes buf erase e w :
  w_erase w !! erase = Some e ->
  (exists r w',
     powernv_flash_async_op P info op offset nbytes NULL buf w = Ret r w' /\
     w_size_t w' = w_size_t w) /\
  (exists rc w2 w',
     powernv_flash_async_op P info FLASH_OP_ERASE (addr e) (len e) NULL NULL
       (with_erase w erase (set_state e MTD_ERASING)) = Ret rc w2 /\
     w_size_t w2 = w_size_t w /\
     powernv_flash_erase P info erase w = Ret 0 w' /\
     w_size_t w' = w_size_t w).
Proof.
  intros He.
  assert (Hnull : forall info op offset len buf m r cs m',
            async_op_path P info op offset len NULL buf m r cs m' -> m' = m).
  { clear. intros info op offset len buf m r cs m' Hp.
    now destruct Hp. }
  split.
  - destruct (powernv_flash_async_op_path P info op offset nbytes NULL buf w)
      as (r & cs & m & Hrun & Hp).
    exists r, (world_after w cs m). split; [exact Hrun |].
    cbn. exact (Hnull _ _ _ _ _ _ _ _ _ Hp).
  - destruct (powernv_flash_erase_run P info erase e w He)
      as (rc & cs & m & Hbridge & Hp & Hrun).
    eexists rc, _, _. split; [exact Hbridge |].
    pose proof (Hnull _ _ _ _ _ _ _ _ _ Hp) as ->.
    split; [reflexivity |]. split; [exact Hrun | reflexivity].
Qed.

(** A read with a null [retlen] that completes with success, and the erase
    of the spec's scenario completing with success. *)
Lemma C10_null_retlen_is_never_written_witness :
  (exists r w',
     powernv_flash_async_op Sample.succeeding Sample.flash FLASH_OP_READ
       4096 256 NULL 4096 Sample.world0 = Ret r w' /\
     w_size_t w' = w_size_t Sample.world0) /\
  (exists rc w2 w',
     powernv_flash_async_op Sample.succeeding Sample.flash FLASH_OP_ERASE
       16384 4096 NULL NULL
       (with_erase Sample.world0 64 (set_state Sample.request MTD_ERASING)) =
       Ret rc w2 /\
     w_size_t w2 = w_size_t Sample.world0 /\
     powernv_flash_erase Sample.succeeding Sample.flash 64 Sample.world0 =
       Ret 0 w' /\
     w_size_t w' = w_size_t Sample.world0).
Proof.
  apply (C10_null_retlen_is_never_written Sample.succeeding Sample.flash
           FLASH_OP_READ 4096 256 4096 64 Sample.request Sample.world0).
  reflexivity.
Defined.

(** ** Start-up *)

Lemma run_devm_kzalloc P w :
  devm_kzalloc P w =
  Ret (kzalloc P (w_log w)) (after_calls w [call_devm_kzalloc (kzalloc P (w_log w))]).
Proof. reflexivity. Qed.

Lemma run_of_read_number_one v :
  (4 <= length v)%nat ->
  exists x, forall w, of_read_number (Some v) 1 w = Ret x w.
Proof.
  intros Hv. unfold of_read_number, of_read_number_loop, read_cell.
  cbn [Nat.mul Nat.add]. rewrite drop_0.
  destruct (decide (length (take 4 v) = 4%nat)) as [_ | Hn].
  - eexists. intros w. reflexivity.
  - exfalso. apply Hn. rewrite length_take. lia.
Qed.

Lemma run_of_read_number_null size w :
  of_read_number None size w = Oops w.
Proof. reflexivity. Qed.

(** [powernv_flash_set_driver_info] when the node has no ['reg'] and the
    unwritten [count] passes for two cells: [of_read_number] is handed the
    null [reg]. *)
Lemma set_driver_info_without_reg P dev mtd w :
  is_Some (of_node dev !! "ibm,flash-block-size") ->
  of_node dev !! "reg" = None ->
  to_u64 (indeterminate_int P) / sizeof_be32 = 2 ->
  powernv_flash_set_driver_info P dev mtd w = Oops w.
Proof.
  intros [bs Hbs] Hreg Hcount.
  unfold powernv_flash_set_driver_info, of_get_property.
  rewrite Hbs, Hreg. cbn [fst fmap option_fmap option_map].
  rewrite bool_decide_eq_false_2 by discriminate.
  rewrite Hcount. cbn [Z.eqb Pos.eqb negb].
  reflexivity.
Qed.

(** C8 (the code departs from the claim).  The claim: when a start-up datum
    is missing, also the ['reg'] property, [powernv_flash_probe] returns an
    error and registers nothing.  The code: [erase_size] and [prop] are
    tested against null, [reg] is not; what is tested is [count], which
    nothing has written when the node has no ['reg'].  Where that [int]
    happens to hold 8 to 11 the test passes and [of_read_number(reg, 2)]
    reads through the null [reg]: the probe oopses instead of returning an
    error.  (It still registers nothing.) *)
Theorem C8_probe_without_reg_reads_null P pdev w opal_id :
  kzalloc P (w_log w) <> NULL ->
  of_node (dev pdev) !! "ibm,opal-id" = Some opal_id ->
  (4 <= length opal_id)%nat ->
  is_Some (of_node (dev pdev) !! "ibm,flash-block-size") ->
  of_node (dev pdev) !! "reg" = None ->
  to_u64 (indeterminate_int P) / sizeof_be32 = 2 ->
  (exists w', powernv_flash_probe P pdev w = Oops w') /\
  (forall r w', powernv_flash_probe P pdev w <> Ret r w') /\
  count_calls is_register (probe_calls P pdev w) = 0%nat.
Proof.
  intros Halloc Hid Hlen Hbs Hreg Hcount.
  destruct (run_of_read_number_one opal_id Hlen) as [x Hx].
  assert (Hrun : powernv_flash_probe P pdev w =
                 Oops (after_calls w [call_devm_kzalloc (kzalloc P (w_log w))])).
  { unfold powernv_flash_probe.
    rewrite (run_bind _ _ _ _ _ (run_devm_kzalloc P w)).
    apply Z.eqb_neq in Halloc. rewrite Halloc.
    unfold of_get_property. rewrite Hid. cbn [fst].
    rewrite bool_decide_eq_false_2 by discriminate.
    rewrite (run_bind _ _ _ _ _ (Hx _)).
    apply run_bind_oops.
    now apply set_driver_info_without_reg. }
  split; [eauto |]. split.
  - intros r w'. rewrite Hrun. discriminate.
  - unfold probe_calls. rewrite Hrun. cbn [final_world].
    now rewrite calls_since_after_calls.
Qed.

(** A node with ['ibm,opal-id'] and ['ibm,flash-block-size'] but no
    ['reg'], probed while the stack slot of [count] holds 8. *)
Lemma C8_probe_without_reg_reads_null_witness :
  (exists w',
     powernv_flash_probe
       (Sample.fixed_platform 3 OPAL_ASYNC_COMPLETION 0
          (Sample.msg_of Sample.status_success) 8)
       (Sample.pdev_of Sample.node_without_reg) Sample.world0 = Oops w') /\
  (forall r w',
     powernv_flash_probe
       (Sample.fixed_platform 3 OPAL_ASYNC_COMPLETION 0
          (Sample.msg_of Sample.status_success) 8)
       (Sample.pdev_of Sample.node_without_reg) Sample.world0 <> Ret r w') /\
  count_calls is_register
    (probe_calls
       (Sample.fixed_platform 3 OPAL_ASYNC_COMPLETION 0
          (Sample.msg_of Sample.status_success) 8)
       (Sample.pdev_of Sample.node_without_reg) Sample.world0) = 0%nat.
Proof.
  apply (C8_probe_without_reg_reads_null
           (Sample.fixed_platform 3 OPAL_ASYNC_COMPLETION 0
              (Sample.msg_of Sample.status_success) 8)
           (Sample.pdev_of Sample.node_without_reg) Sample.world0
           [0; 0; 0; 1]).
  - discriminate.
  - reflexivity.
  - cbn. lia.
  - exists [0; 0; 16; 0]. reflexivity.
  - reflexivity.
  - reflexivity.
Defined.

(** The start-up data the probe does check: without ['ibm,opal-id'],
    without ['ibm,flash-block-size'], with a ['reg'] that is not two cells
    long, or without ['reg'] while [count] holds anything but 8 to 11, it
    returns [-EIO] after an error message and registers nothing. *)
Lemma probe_without_opal_id P pdev w :
  kzalloc P (w_log w) <> NULL ->
  of_node (dev pdev) !! "ibm,opal-id" = None ->
  powernv_flash_probe P pdev w =
  Ret (- EIO)
      (after_calls w
         [call_devm_kzalloc (kzalloc P (w_log w));
          call_dev_err "no device property 'ibm,opal-id\n" []]).
Proof.
  intros Halloc Hid. unfold powernv_flash_probe.
  rewrite (run_bind _ _ _ _ _ (run_devm_kzalloc P w)).
  apply Z.eqb_neq in Halloc. rewrite Halloc.
  unfold of_get_property. rewrite Hid. cbn [fst].
  rewrite bool_decide_eq_true_2 by reflexivity.
  kstep. reflexivity.
Qed.

Lemma set_driver_info_without_block_size P dev mtd w :
  of_node dev !! "ibm,flash-block-size" = None ->
  powernv_flash_set_driver_info P dev mtd w =
  Ret (1, mtd)
      (after_calls w
         [call_dev_err "no device property 'ibm,flash-block-size'\n" []]).
Proof.
  intros Hbs. unfold powernv_flash_set_driver_info, of_get_property.
  rewrite Hbs. cbn [fst].
  rewrite bool_decide_eq_true_2 by reflexivity.
  kstep. reflexivity.
Qed.

Lemma set_driver_info_reg_not_two_cells P dev mtd w reg :
  is_Some (of_node dev !! "ibm,flash-block-size") ->
  of_node dev !! "reg" = Some reg ->
  to_u64 (Z.of_nat (length reg)) / sizeof_be32 <> 2 ->
  powernv_flash_set_driver_info P dev mtd w =
  Ret (1, mtd)
      (after_calls w
         [call_dev_err "couldn't get resource information count=%d\n"
                       [Z.of_nat (length reg)]]).
Proof.
  intros [bs Hbs] Hreg Hcount.
  unfold powernv_flash_set_driver_info, of_get_property.
  rewrite Hbs, Hreg. cbn [fst fmap option_fmap option_map].
  rewrite bool_decide_eq_false_2 by discriminate.
  apply Z.eqb_neq in Hcount. rewrite Hcount. cbn [negb].
  kstep. reflexivity.
Qed.

Lemma set_driver_info_without_reg_rejected P dev mtd w :
  is_Some (of_node dev !! "ibm,flash-block-size") ->
  of_node dev !! "reg" = None ->
  to_u64 (indeterminate_int P) / sizeof_be32 <> 2 ->
  powernv_flash_set_driver_info P dev mtd w =
  Ret (1, mtd)
      (after_calls w
         [call_dev_err "couldn't get resource information count=%d\n"
                       [indeterminate_int P]]).
Proof.
  intros [bs Hbs] Hreg Hcount.
  unfold powernv_flash_set_driver_info, of_get_property.
  rewrite Hbs, Hreg. cbn [fst fmap option_fmap option_map].
  rewrite bool_decide_eq_false_2 by discriminate.
  apply Z.eqb_neq in Hcount. rewrite Hcount. cbn [negb].
  kstep. reflexivity.
Qed.

(** The probe around a [powernv_flash_set_driver_info] that returns 1. *)
Lemma probe_driver_info_failed P pdev w opal_id cs :
  kzalloc P (w_log w) <> NULL ->
  of_node (dev pdev) !! "ibm,opal-id" = Some opal_id ->
  (4 <= length opal_id)%nat ->
  (forall mtd w0,
     powernv_flash_set_driver_info P (dev pdev) mtd w0 =
     Ret (1, mtd) (after_calls w0 cs)) ->
  powernv_flash_probe P pdev w =
  Ret (- EIO)
      (after_calls w (call_devm_kzalloc (kzalloc P (w_log w)) :: cs)).
Proof.
  intros Halloc Hid Hlen Hinfo.
  destruct (run_of_read_number_one opal_id Hlen) as [x Hx].
  unfold powernv_flash_probe.
  rewrite (run_bind _ _ _ _ _ (run_devm_kzalloc P w)).
  apply Z.eqb_neq in Halloc. rewrite Halloc.
  unfold of_get_property. rewrite Hid. cbn [fst].
  rewrite bool_decide_eq_false_2 by discriminate.
  rewrite (run_bind _ _ _ _ _ (Hx _)).
  rewrite (run_bind _ _ _ _ _ (Hinfo _ _)).
  cbn [fst Z.eqb negb]. rewrite after_calls_app. reflexivity.
Qed.

Lemma probe_checked_data_missing P pdev w opal_id :
  kzalloc P (w_log w) <> NULL ->
  of_node (dev pdev) !! "ibm,opal-id" = Some opal_id ->
  (4 <= length opal_id)%nat ->
  of_node (dev pdev) !! "ibm,flash-block-size" = None \/
  (is_Some (of_node (dev pdev) !! "ibm,flash-block-size") /\
   exists reg, of_node (dev pdev) !! "reg" = Some reg /\
               to_u64 (Z.of_nat (length reg)) / sizeof_be32 <> 2) \/
  (is_Some (of_node (dev pdev) !! "ibm,flash-block-size") /\
   of_node (dev pdev) !! "reg" = None /\
   to_u64 (indeterminate_int P) / sizeof_be32 <> 2) ->
  exists w',
    powernv_flash_probe P pdev w = Ret (- EIO) w' /\
    count_calls is_register (calls_since w w') = 0%nat.
Proof.
  intros Halloc Hid Hlen [Hbs | [[Hbs (reg & Hreg & Hc)] | (Hbs & Hreg & Hc)]].
  - eexists. split.
    + eapply (probe_driver_info_failed P pdev w opal_id _ Halloc Hid Hlen).
      intros mtd w0. apply set_driver_info_without_block_size; exact Hbs.
    + now rewrite calls_since_after_calls.
  - eexists. split.
    + eapply (probe_driver_info_failed P pdev w opal_id _ Halloc Hid Hlen).
      intros mtd w0. apply set_driver_info_reg_not_two_cells; eassumption.
    + now rewrite calls_since_after_calls.
  - eexists. split.
    + eapply (probe_driver_info_failed P pdev w opal_id _ Halloc Hid Hlen).
      intros mtd w0. apply set_driver_info_without_reg_rejected; assumption.
    + now rewrite calls_since_after_calls.
Qed.

(** ** The model on the sample inputs *)

Example decoded_status_success :
  decoded_status (Sample.msg_of Sample.status_success) = OPAL_SUCCESS.
Proof. reflexivity. Qed.

Example decoded_status_hardware :
  decoded_status (Sample.msg_of Sample.status_hardware) = OPAL_HARDWARE.
Proof. reflexivity. Qed.

(** [rc] is an [int]: only the low 32 bits of the 64-bit status count. *)
Example decoded_status_truncates :
  decoded_status (Sample.msg_of [0; 0; 0; 1; 0; 0; 0; 0]) = OPAL_SUCCESS.
Proof. reflexivity. Qed.

(** A read of 256 bytes at [0x1000] that the firmware completes. *)
Example read_completes :
  powernv_flash_read Sample.succeeding Sample.flash 4096 256 128 4096
    Sample.world0 =
  Ret 0
    {| w_size_t := <[128 := 256]> (w_size_t Sample.world0);
       w_erase := w_erase Sample.world0;
       w_log :=
         [entry_call FLASH_OP_READ 4096 256;
          call_opal_async_get_token_interruptible 3;
          call_opal_flash_read 1 4096 4096 256 3 OPAL_ASYNC_COMPLETION;
          call_opal_async_wait_response 3 0
            (Sample.msg_of Sample.status_success);
          call_opal_async_release_token 3] |}.
Proof. reflexivity. Qed.

(** The erase of [{addr = 0x4000, len = 0x1000}] that the firmware
    rejects. *)
Example erase_rejected :
  powernv_flash_erase Sample.rejecting Sample.flash 64 Sample.world0 =
  Ret 0
    {| w_size_t := w_size_t Sample.world0;
       w_erase :=
         <[64 := {| addr := 16384; len := 4096; fail_addr := 16384;
                    state := MTD_ERASE_FAILED |}]>
           (<[64 := {| addr := 16384; len := 4096; fail_addr := 0;
                       state := MTD_ERASING |}]> (w_erase Sample.world0));
       w_log :=
         [entry_call FLASH_OP_ERASE 16384 4096;
          call_opal_async_get_token_interruptible 3;
          call_opal_flash_erase 1 16384 4096 3 OPAL_PARAMETER;
          call_dev_err "opal_flash_async_op(op=%d) failed (rc %d)\n" [2; -1];
          call_mtd_erase_callback 64
            {| addr := 16384; len := 4096; fail_addr := 16384;
               state := MTD_ERASE_FAILED |}] |}.
Proof. vm_compute. reflexivity. Qed.

(** The probe of a complete node registers a 64 MiB device with 4 KiB
    erase blocks. *)
Example probe_complete_node :
  powernv_flash_probe Sample.succeeding
    (Sample.pdev_of Sample.node_complete) Sample.world0 =
  Ret 0
    (after_calls Sample.world0
       [call_devm_kzalloc 49152;
        call_mtd_device_parse_register
          {| name := None; type := MTD_NANDFLASH;
             flags := MTD_CAP_NANDFLASH; size := 67108864;
             erasesize := 4096; writesize := 1; writebufsize := 1;
             owner_this_module := true;
             _erase := handler_powernv_flash_erase;
             _read := handler_powernv_flash_read;
             _write := handler_powernv_flash_write;
             dev_parent := 32768; priv := 49152 |} 0]).
Proof. vm_compute. reflexivity. Qed.

(** * Further properties of the driver *)

(** ** The calls of the bridge *)

Lemma is_dispatch_dispatch_call P info op offset len buf t r :
  is_dispatch (dispatch_call P info op offset len buf t r) = true.
Proof. now destruct op. Qed.

(** Find a call in the explicit list of calls of a path. *)
Ltac here_or_further :=
  repeat first [apply list_elem_of_here | apply list_elem_of_further].

(** X1.  Every invocation of the bridge asks for a token exactly once,
    dispatches at most once, waits at most once and only after a dispatch,
    releases a token exactly as often as it waits, and never notifies an
    erase completion or registers a device. *)
Theorem X1_bridge_call_counts P info op offset len retlen buf w :
  count_calls is_get_token
    (bridge_calls P info op offset len retlen buf w) = 1%nat /\
  (count_calls is_dispatch
     (bridge_calls P info op offset len retlen buf w) <= 1)%nat /\
  (count_calls is_wait (bridge_calls P info op offset len retlen buf w) <=
   count_calls is_dispatch
     (bridge_calls P info op offset len retlen buf w))%nat /\
  count_calls is_any_release
    (bridge_calls P info op offset len retlen buf w) =
  count_calls is_wait (bridge_calls P info op offset len retlen buf w) /\
  count_calls is_erase_callback
    (bridge_calls P info op offset len retlen buf w) = 0%nat /\
  count_calls is_register
    (bridge_calls P info op offset len retlen buf w) = 0%nat.
Proof.
  destruct (bridge_calls_path P info op offset len retlen buf w)
    as (r & m & _ & Hp).
  remember (bridge_calls P info op offset len retlen buf w) as cs eqn:Ecs.
  clear Ecs.
  destruct Hp; destruct op; unfold count_calls; cbn; repeat split; lia.
Qed.

(** X2.  When the firmware rejects the dispatch, the bridge never waits
    for a completion: it returns [-EIO] right after the dispatch, with an
    error message as its last call. *)
Theorem X2_rejected_dispatch_never_waits P info op offset len retlen buf w :
  dispatch_rejected (bridge_calls P info op offset len retlen buf w) ->
  count_calls is_wait
    (bridge_calls P info op offset len retlen buf w) = 0%nat /\
  exists t r,
    to_int r <> OPAL_ASYNC_COMPLETION /\
    bridge_calls P info op offset len retlen buf w =
      [entry_call op offset len;
       call_opal_async_get_token_interruptible t;
       dispatch_call P info op offset len buf t r;
       call_dev_err "opal_flash_async_op(op=%d) failed (rc %d)\n"
                    [flash_op_value op; to_int r]].
Proof.
  intros (c & rc' & Hc & Hrc & Hne).
  destruct (bridge_calls_path P info op offset len retlen buf w)
    as (r & m & _ & Hp).
  remember (bridge_calls P info op offset len retlen buf w) as cs eqn:Ecs.
  clear Ecs.
  destruct Hp as [t0 Ht0 | t0 r0 Ht0 Hr0 | t0 r0 rc msg Ht0 Hr0 Hw
                 | t0 r0 msg Ht0 Hr0 Hs | t0 r0 msg Ht0 Hr0 Hs];
    split_elem Hc; subst c; try wrong_call;
    rewrite dispatch_rc_dispatch_call in Hrc; try congruence.
  split; [destruct op; reflexivity | eauto].
Qed.

Lemma X2_rejected_dispatch_never_waits_witness :
  count_calls is_wait
    (bridge_calls Sample.rejecting Sample.flash FLASH_OP_WRITE
       8192 64 128 4096 Sample.world0) = 0%nat /\
  exists t r,
    to_int r <> OPAL_ASYNC_COMPLETION /\
    bridge_calls Sample.rejecting Sample.flash FLASH_OP_WRITE
      8192 64 128 4096 Sample.world0 =
      [entry_call FLASH_OP_WRITE 8192 64;
       call_opal_async_get_token_interruptible t;
       dispatch_call Sample.rejecting Sample.flash FLASH_OP_WRITE 8192 64
                     4096 t r;
       call_dev_err "opal_flash_async_op(op=%d) failed (rc %d)\n"
                    [flash_op_value FLASH_OP_WRITE; to_int r]].
Proof.
  apply (X2_rejected_dispatch_never_waits Sample.rejecting Sample.flash
           FLASH_OP_WRITE 8192 64 128 4096 Sample.world0).
  exists (call_opal_flash_write 1 8192 4096 64 3 (-1)), (-1).
  split; [find_call | split; [reflexivity | discriminate]].
Defined.

Lemma async_op_path_dispatch P info op offset len retlen buf m r cs m' c :
  async_op_path P info op offset len retlen buf m r cs m' ->
  c ∈ cs ->
  is_dispatch c = true ->
  exists t r0,
    token_acquired t cs /\ c = dispatch_call P info op offset len buf t r0.
Proof.
  intros Hp Hc Hd.
  destruct Hp as [t0 Ht0 | t0 r0 Ht0 Hr0 | t0 r0 rc msg Ht0 Hr0 Hw
                 | t0 r0 msg Ht0 Hr0 Hs | t0 r0 msg Ht0 Hr0 Hs];
    split_elem Hc; subst c; try discriminate Hd;
    exists t0, r0; (split; [split; [here_or_further | exact Ht0]
                           | reflexivity]).
Qed.

(** X3.  Whatever the bridge dispatches is the firmware call of the
    requested operation (read for [FLASH_OP_READ], write for
    [FLASH_OP_WRITE], erase for [FLASH_OP_ERASE]) with the device's id, the
    requested offset and length, the physical address of [buf] and the
    token it has just acquired. *)
Theorem X3_dispatch_carries_request P info op offset len retlen buf w c :
  c ∈ bridge_calls P info op offset len retlen buf w ->
  is_dispatch c = true ->
  exists t r,
    token_acquired t (bridge_calls P info op offset len retlen buf w) /\
    c = match op with
        | FLASH_OP_READ =>
            call_opal_flash_read (id info) (to_u64 offset) (phys_addr P buf)
                                 len (to_u64 t) r
        | FLASH_OP_WRITE =>
            call_opal_flash_write (id info) (to_u64 offset)
                                  (phys_addr P buf) len (to_u64 t) r
        | FLASH_OP_ERASE =>
            call_opal_flash_erase (id info) (to_u64 offset) len
                                  (to_u64 t) r
        end.
Proof.
  intros Hc Hd.
  destruct (bridge_calls_path P info op offset len retlen buf w)
    as (r & m & _ & Hp).
  exact (async_op_path_dispatch _ _ _ _ _ _ _ _ _ _ _ _ Hp Hc Hd).
Qed.

Lemma X3_dispatch_carries_request_witness :
  exists t r,
    token_acquired t
      (bridge_calls Sample.succeeding Sample.flash FLASH_OP_READ
         4096 256 128 4096 Sample.world0) /\
    call_opal_flash_read 1 4096 4096 256 3 OPAL_ASYNC_COMPLETION =
    call_opal_flash_read (id Sample.flash) (to_u64 4096)
      (phys_addr Sample.succeeding 4096) 256 (to_u64 t) r.
Proof.
  apply (X3_dispatch_carries_request Sample.succeeding Sample.flash
           FLASH_OP_READ 4096 256 128 4096 Sample.world0
           (call_opal_flash_read 1 4096 4096 256 3 OPAL_ASYNC_COMPLETION)).
  - find_call.
  - reflexivity.
Defined.

(** ** What the bridge leaves alone *)

(** X4.  The bridge always returns.  It leaves every [struct erase_info]
    as it was, it appends its calls to the log, and the [size_t] objects
    are either all as they were or differ by the one store of [len]
    through a non-null [retlen]. *)
Theorem X4_bridge_frame P info op offset len retlen buf w :
  exists r w',
    powernv_flash_async_op P info op offset len retlen buf w = Ret r w' /\
    w_erase w' = w_erase w /\
    w_log w' = w_log w ++ bridge_calls P info op offset len retlen buf w /\
    (w_size_t w' = w_size_t w \/
     (retlen <> NULL /\ w_size_t w' = <[retlen := len]> (w_size_t w))).
Proof.
  destruct (bridge_calls_path P info op offset len retlen buf w)
    as (r & m & Hrun & Hp).
  remember (bridge_calls P info op offset len retlen buf w) as cs eqn:Ecs.
  clear Ecs.
  exists r, (world_after w cs m).
  split; [exact Hrun |]. split; [reflexivity |]. split; [reflexivity |].
  cbn. destruct Hp; auto.
  destruct (retlen =? NULL) eqn:E; [auto |].
  apply Z.eqb_neq in E. auto.
Qed.

(** ** The return value of the bridge, path by path *)

Lemma async_op_path_return_value P info op offset len retlen buf m r cs m' :
  async_op_path P info op offset len retlen buf m r cs m' ->
  (r = - ENOMEM <-> token_failed cs) /\
  (r = - EIO <-> dispatch_rejected cs \/ wait_failed cs) /\
  (r = 0 <-> exists status, completed_with status cs).
Proof.
  intros Hp.
  destruct Hp as [t0 Ht0 | t0 r0 Ht0 Hr0 | t0 r0 rc msg Ht0 Hr0 Hw
                 | t0 r0 msg Ht0 Hr0 Hs | t0 r0 msg Ht0 Hr0 Hs].
  - split; [| split]; split; try discriminate; try (intros _; reflexivity).
    + intros _. exists t0. split; [here_or_further | exact Ht0].
    + intros [(c & rc & Hc & Hrc & _) | (t & rc & msg & Hc & _)];
        split_elem Hc; try subst c; wrong_call.
    + intros (status & t & msg & Hc & _). split_elem Hc; wrong_call.
  - split; [| split]; split; try discriminate; try (intros _; reflexivity).
    + intros (t & Hc & Ht). split_elem Hc; try wrong_call.
      injection Hc as ->. lia.
    + intros _. left. exists (dispatch_call P info op offset len buf t0 r0).
      exists (to_int r0). split; [here_or_further |].
      split; [apply dispatch_rc_dispatch_call | exact Hr0].
    + intros (status & t & msg & Hc & _). split_elem Hc; wrong_call.
  - split; [| split]; split; try discriminate; try (intros _; reflexivity).
    + intros (t & Hc & Ht). split_elem Hc; try wrong_call.
      injection Hc as ->. lia.
    + intros _. right. exists (to_u64 t0), rc, msg.
      split; [here_or_further | exact Hw].
    + intros (status & t & msg' & Hc & _). split_elem Hc; try wrong_call.
      injection Hc as _ <- _. congruence.
  - split; [| split]; split; try discriminate; try (intros _; reflexivity).
    + intros (t & Hc & Ht). split_elem Hc; try wrong_call.
      injection Hc as ->. lia.
    + intros [(c & rc & Hc & Hrc & Hne) | (t & rc & msg' & Hc & Hne)].
      * split_elem Hc; subst c; try wrong_call.
        rewrite dispatch_rc_dispatch_call in Hrc. congruence.
      * split_elem Hc; try wrong_call. injection Hc as _ -> _. congruence.
    + intros _. exists (decoded_status msg), (to_u64 t0), msg.
      split; [here_or_further | reflexivity].
  - split; [| split]; split; try discriminate; try (intros _; reflexivity).
    + intros (t & Hc & Ht). split_elem Hc; try wrong_call.
      injection Hc as ->. lia.
    + intros [(c & rc & Hc & Hrc & Hne) | (t & rc & msg' & Hc & Hne)].
      * split_elem Hc; subst c; try wrong_call.
        rewrite dispatch_rc_dispatch_call in Hrc. congruence.
      * split_elem Hc; try wrong_call. injection Hc as _ -> _. congruence.
    + intros _. exists (decoded_status msg), (to_u64 t0), msg.
      split; [here_or_further | reflexivity].
Qed.

(** X5.  The bridge returns [-ENOMEM] exactly when the token acquisition
    failed, [-EIO] exactly when the dispatch was rejected or the wait
    failed, and 0 exactly when the wait delivered a completion message,
    whatever status that message carries. *)
Theorem X5_bridge_return_value_by_path P info op offset len retlen buf w :
  exists r w',
    powernv_flash_async_op P info op offset len retlen buf w = Ret r w' /\
    (r = - ENOMEM <->
     token_failed (bridge_calls P info op offset len retlen buf w)) /\
    (r = - EIO <->
     dispatch_rejected (bridge_calls P info op offset len retlen buf w) \/
     wait_failed (bridge_calls P info op offset len retlen buf w)) /\
    (r = 0 <->
     exists status,
       completed_with status
         (bridge_calls P info op offset len retlen buf w)).
Proof.
  destruct (bridge_calls_path P info op offset len retlen buf w)
    as (r & m & Hrun & Hp).
  eexists r, _. split; [exact Hrun |].
  exact (async_op_path_return_value _ _ _ _ _ _ _ _ _ _ _ Hp).
Qed.

(** ** The token after an accepted dispatch *)

(** X6.  Once the firmware has accepted the dispatch, the bridge waits
    for the completion and releases the token it acquired as the very next
    call, before it looks at the result of the wait; only a failed wait adds
    an error message.  The token is released exactly once and none is held
    when the bridge returns. *)
Theorem X6_release_follows_wait P info op offset len retlen buf w :
  dispatch_accepted (bridge_calls P info op offset len retlen buf w) ->
  exists t r rc msg,
    0 <= t /\
    bridge_calls P info op offset len retlen buf w =
      [entry_call op offset len;
       call_opal_async_get_token_interruptible t;
       dispatch_call P info op offset len buf t r;
       call_opal_async_wait_response (to_u64 t) rc msg;
       call_opal_async_release_token t] ++
      (if rc =? 0 then []
       else [call_dev_err "opal async wait failed (rc %d)\n" [rc]]) /\
    count_calls (is_release t)
      (bridge_calls P info op offset len retlen buf w) = 1%nat /\
    held_tokens (bridge_calls P info op offset len retlen buf w) = [].
Proof.
  intros Hacc.
  pose proof (fun t Ht =>
                accepted_dispatch_releases_token P info op offset len retlen
                  buf w t Ht Hacc) as Hrel.
  destruct (bridge_calls_path P info op offset len retlen buf w)
    as (r & m & _ & Hp).
  remember (bridge_calls P info op offset len retlen buf w) as cs eqn:Ecs.
  clear Ecs.
  destruct Hacc as (c & Hc & Hrc).
  destruct Hp as [t0 Ht0 | t0 r0 Ht0 Hr0 | t0 r0 rc msg Ht0 Hr0 Hw
                 | t0 r0 msg Ht0 Hr0 Hs | t0 r0 msg Ht0 Hr0 Hs].
  - split_elem Hc; subst c; wrong_call.
  - split_elem Hc; subst c; try wrong_call.
    rewrite dispatch_rc_dispatch_call in Hrc. congruence.
  - exists t0, r0, rc, msg. split; [exact Ht0 |].
    apply Z.eqb_neq in Hw. rewrite Hw.
    split; [reflexivity |].
    apply Hrel. split; [here_or_further | exact Ht0].
  - exists t0, r0, 0, msg. split; [exact Ht0 |].
    split; [reflexivity |].
    apply Hrel. split; [here_or_further | exact Ht0].
  - exists t0, r0, 0, msg. split; [exact Ht0 |].
    split; [reflexivity |].
    apply Hrel. split; [here_or_further | exact Ht0].
Qed.

(** A read whose wait fails with [-EINVAL]. *)
Lemma X6_release_follows_wait_witness :
  exists t r rc msg,
    0 <= t /\
    bridge_calls Sample.failing_wait Sample.flash FLASH_OP_READ
      4096 256 128 4096 Sample.world0 =
      [entry_call FLASH_OP_READ 4096 256;
       call_opal_async_get_token_interruptible t;
       dispatch_call Sample.failing_wait Sample.flash FLASH_OP_READ
                     4096 256 4096 t r;
       call_opal_async_wait_response (to_u64 t) rc msg;
       call_opal_async_release_token t] ++
      (if rc =? 0 then []
       else [call_dev_err "opal async wait failed (rc %d)\n" [rc]]) /\
    count_calls (is_release t)
      (bridge_calls Sample.failing_wait Sample.flash FLASH_OP_READ
         4096 256 128 4096 Sample.world0) = 1%nat /\
    held_tokens
      (bridge_calls Sample.failing_wait Sample.flash FLASH_OP_READ
         4096 256 128 4096 Sample.world0) = [].
Proof.
  apply (X6_release_follows_wait Sample.failing_wait Sample.flash
           FLASH_OP_READ 4096 256 128 4096 Sample.world0).
  exists (call_opal_flash_read 1 4096 4096 256 3 OPAL_ASYNC_COMPLETION).
  split; [find_call | reflexivity].
Defined.

(** ** Big-endian decoding *)

Lemma to_u64_id z : 0 <= z < 2 ^ 64 -> to_u64 z = z.
Proof. intros Hz. unfold to_u64, wrap_unsigned. now apply Z.mod_small. Qed.

Lemma lor_shiftl_low a n x :
  0 <= n -> 0 <= x < 2 ^ n -> Z.lor (Z.shiftl a n) x = a * 2 ^ n + x.
Proof.
  intros Hn Hx.
  rewrite <- Z.shiftl_mul_pow2 by exact Hn.
  assert (Hdisj : Z.land (Z.shiftl a n) x = 0).
  { apply Z.bits_inj'. intros i Hi.
    rewrite Z.land_spec, Z.bits_0.
    destruct (Z.lt_ge_cases i n) as [Hlt | Hge].
    - now rewrite Z.shiftl_spec_low.
    - replace (Z.testbit x i) with false; [apply andb_false_r |].
      symmetry. destruct (Z.eq_dec x 0) as [-> | Hx0]; [apply Z.bits_0 |].
      apply Z.bits_above_log2; [apply Hx |].
      apply Z.lt_le_trans with n; [| exact Hge].
      apply Z.log2_lt_pow2; [| apply Hx]. destruct Hx. lia. }
  rewrite <- (Z.lxor_lor _ _ Hdisj).
  symmetry. now apply Z.add_nocarry_lxor.
Qed.

(** Decoding from an accumulator: the accumulator is shifted past the
    bytes; the bytes alone decode to a number of that many bits. *)
Lemma be_to_cpu_from acc bytes :
  fold_left (fun acc b => Z.lor (Z.shiftl acc 8) (Z.land b 255)) bytes acc =
  acc * 2 ^ (8 * Z.of_nat (length bytes)) + be_to_cpu bytes /\
  0 <= be_to_cpu bytes < 2 ^ (8 * Z.of_nat (length bytes)).
Proof.
  unfold be_to_cpu. revert acc.
  induction bytes as [| b bytes IH] using rev_ind; intros acc.
  - cbn. lia.
  - rewrite !fold_left_app. cbn [fold_left].
    rewrite length_app. cbn [length].
    destruct (IH acc) as [IHa IHb]. rewrite IHa.
    replace (8 * Z.of_nat (length bytes + 1))
      with (8 * Z.of_nat (length bytes) + 8) by lia.
    rewrite Z.pow_add_r by lia.
    assert (Hb : 0 <= Z.land b 255 < 2 ^ 8).
    { change 255 with (Z.ones 8). rewrite Z.land_ones by lia.
      apply Z.mod_pos_bound. lia. }
    rewrite !lor_shiftl_low by (try lia; exact Hb).
    split; [ring | nia].
Qed.

Lemma be_to_cpu_bound bytes :
  0 <= be_to_cpu bytes < 2 ^ (8 * Z.of_nat (length bytes)).
Proof. apply (be_to_cpu_from 0). Qed.

Lemma be_to_cpu_app hi lo :
  be_to_cpu (hi ++ lo) =
  be_to_cpu hi * 2 ^ (8 * Z.of_nat (length lo)) + be_to_cpu lo.
Proof.
  unfold be_to_cpu at 1. rewrite fold_left_app.
  fold (be_to_cpu hi). apply be_to_cpu_from.
Qed.

Lemma to_int_add_high a b : to_int (a * 2 ^ 32 + b) = to_int b.
Proof.
  unfold to_int, wrap_signed. f_equal.
  replace (a * 2 ^ 32 + b + 2 ^ (32 - 1))
    with (b + 2 ^ (32 - 1) + a * 2 ^ 32) by ring.
  apply Z.mod_add. lia.
Qed.

(** X7.  The completion status is read into an [int]: of the 64-bit
    big-endian [params[1]] only the low four bytes decide it, so a message
    whose low word is zero is taken as success whatever its high word. *)
Theorem X7_decoded_status_low_word msg hi lo :
  msg_param msg 1 = hi ++ lo ->
  length lo = 4%nat ->
  decoded_status msg = to_int (be_to_cpu lo) /\
  - 2 ^ 31 <= decoded_status msg < 2 ^ 31.
Proof.
  intros Hp Hlo. unfold decoded_status. rewrite Hp, be_to_cpu_app, Hlo.
  change (8 * Z.of_nat 4) with 32. rewrite to_int_add_high.
  split; [reflexivity |].
  unfold to_int, wrap_signed.
  pose proof (Z.mod_pos_bound (be_to_cpu lo + 2 ^ (32 - 1)) (2 ^ 32)) as H.
  change (2 ^ (32 - 1)) with (2 ^ 31) in *. lia.
Qed.

Lemma X7_decoded_status_low_word_witness :
  decoded_status Sample2.msg_high_word = to_int (be_to_cpu [0; 0; 0; 0]) /\
  - 2 ^ 31 <= decoded_status Sample2.msg_high_word < 2 ^ 31.
Proof.
  apply (X7_decoded_status_low_word Sample2.msg_high_word
           [0; 0; 0; 1] [0; 0; 0; 0]); reflexivity.
Defined.

(** ** Erase requests *)

Lemma async_op_path_null_retlen P info op offset len buf m r cs m' :
  async_op_path P info op offset len NULL buf m r cs m' -> m' = m.
Proof. intros Hp. now destruct Hp. Qed.

(** The run of [powernv_flash_erase] in one piece: the path the bridge
    took, what is returned, and what has changed. *)
Lemma powernv_flash_erase_summary P info erase e w :
  w_erase w !! erase = Some e ->
  exists rc cs w',
    async_op_path P info FLASH_OP_ERASE (addr e) (len e) NULL NULL
      (w_size_t w) rc cs (w_size_t w) /\
    powernv_flash_erase P info erase w = Ret 0 w' /\
    w_erase w' = <[erase := erase_outcome e rc]> (w_erase w) /\
    w_size_t w' = w_size_t w /\
    erase_calls P info erase w =
      cs ++ [call_mtd_erase_callback erase (erase_outcome e rc)].
Proof.
  intros He.
  destruct (powernv_flash_erase_run P info erase e w He)
    as (rc & cs & m & _ & Hp & Hrun).
  pose proof (async_op_path_null_retlen _ _ _ _ _ _ _ _ _ _ Hp) as ->.
  eexists rc, cs, _. split; [exact Hp |]. split; [exact Hrun |].
  split; [| split; [reflexivity |]].
  - cbn. apply insert_insert_eq.
  - unfold erase_calls. rewrite Hrun.
    unfold final_world, calls_since, after_calls, with_erase, world_after.
    cbn. rewrite <- app_assoc. apply drop_app_length.
Qed.

(** The notification is none of the calls the bridge makes. *)
Lemma token_failed_before_callback cs erase e :
  token_failed (cs ++ [call_mtd_erase_callback erase e]) -> token_failed cs.
Proof.
  intros (t & Hc & Ht). exists t. split; [| exact Ht].
  apply elem_of_app in Hc as [Hc | Hc]; [exact Hc |].
  split_elem Hc. discriminate Hc.
Qed.

Lemma dispatch_rejected_before_callback cs erase e :
  dispatch_rejected (cs ++ [call_mtd_erase_callback erase e]) ->
  dispatch_rejected cs.
Proof.
  intros (c & rc & Hc & Hrc & Hne). exists c, rc.
  split; [| split; assumption].
  apply elem_of_app in Hc as [Hc | Hc]; [exact Hc |].
  split_elem Hc. subst c. discriminate Hrc.
Qed.

Lemma wait_failed_before_callback cs erase e :
  wait_failed (cs ++ [call_mtd_erase_callback erase e]) -> wait_failed cs.
Proof.
  intros (t & rc & msg & Hc & Hne). exists t, rc, msg.
  split; [| exact Hne].
  apply elem_of_app in Hc as [Hc | Hc]; [exact Hc |].
  split_elem Hc. discriminate Hc.
Qed.

Lemma completed_with_before_callback status cs erase e :
  completed_with status (cs ++ [call_mtd_erase_callback erase e]) ->
  completed_with status cs.
Proof.
  intros (t & msg & Hc & Hst). exists t, msg.
  split; [| exact Hst].
  apply elem_of_app in Hc as [Hc | Hc]; [exact Hc |].
  split_elem Hc. discriminate Hc.
Qed.

(** X8.  An erase changes nothing but the request it was given: that
    request keeps its [addr] and [len] and ends either [MTD_ERASE_DONE]
    with its [fail_addr] as before or [MTD_ERASE_FAILED] with
    [fail_addr = addr]; every other request and every [size_t] object is
    as it was. *)
Theorem X8_erase_frame P info erase e w :
  w_erase w !! erase = Some e ->
  exists w' e',
    powernv_flash_erase P info erase w = Ret 0 w' /\
    w_erase w' = <[erase := e']> (w_erase w) /\
    w_size_t w' = w_size_t w /\
    addr e' = addr e /\
    len e' = len e /\
    (state e' = MTD_ERASE_DONE /\ fail_addr e' = fail_addr e \/
     state e' = MTD_ERASE_FAILED /\ fail_addr e' = addr e).
Proof.
  intros He.
  destruct (powernv_flash_erase_summary P info erase e w He)
    as (rc & cs & w' & _ & Hrun & Herase & Hsize & _).
  exists w', (erase_outcome e rc).
  split; [exact Hrun |]. split; [exact Herase |]. split; [exact Hsize |].
  unfold erase_outcome. destruct (rc =? 0); cbn; auto.
Qed.

Lemma X8_erase_frame_witness :
  exists w' e',
    powernv_flash_erase Sample.failing_wait Sample.flash 64 Sample.world0 =
      Ret 0 w' /\
    w_erase w' = <[64 := e']> (w_erase Sample.world0) /\
    w_size_t w' = w_size_t Sample.world0 /\
    addr e' = addr Sample.request /\
    len e' = len Sample.request /\
    (state e' = MTD_ERASE_DONE /\ fail_addr e' = fail_addr Sample.request \/
     state e' = MTD_ERASE_FAILED /\ fail_addr e' = addr Sample.request).
Proof.
  apply (X8_erase_frame Sample.failing_wait Sample.flash 64 Sample.request
           Sample.world0).
  reflexivity.
Defined.

(** X9.  An erase during which the token acquisition fails, the firmware
    rejects the dispatch or the wait fails leaves the request
    [MTD_ERASE_FAILED] with [fail_addr = addr], and the notification sees
    it so. *)
Theorem X9_erase_fails_without_completion P info erase e w :
  w_erase w !! erase = Some e ->
  token_failed (erase_calls P info erase w) \/
  dispatch_rejected (erase_calls P info erase w) \/
  wait_failed (erase_calls P info erase w) ->
  exists w' e',
    powernv_flash_erase P info erase w = Ret 0 w' /\
    w_erase w' !! erase = Some e' /\
    state e' = MTD_ERASE_FAILED /\
    fail_addr e' = addr e /\
    call_mtd_erase_callback erase e' ∈ erase_calls P info erase w.
Proof.
  intros He Hfail.
  destruct (powernv_flash_erase_summary P info erase e w He)
    as (rc & cs & w' & Hp & Hrun & Herase & _ & Hcalls).
  rewrite Hcalls in *.
  destruct (async_op_path_return_value _ _ _ _ _ _ _ _ _ _ _ Hp)
    as (Hnomem & Hio & _).
  assert (Hrc : rc <> 0).
  { destruct Hfail as [Hf | [Hf | Hf]].
    - apply token_failed_before_callback, Hnomem in Hf. now subst rc.
    - apply dispatch_rejected_before_callback in Hf.
      assert (rc = - EIO) as -> by (apply Hio; now left). discriminate.
    - apply wait_failed_before_callback in Hf.
      assert (rc = - EIO) as -> by (apply Hio; now right). discriminate. }
  exists w', (erase_outcome e rc).
  split; [exact Hrun |].
  split; [rewrite Herase; apply lookup_insert_eq |].
  unfold erase_outcome. apply Z.eqb_neq in Hrc. rewrite Hrc. cbn.
  split; [reflexivity |]. split; [reflexivity |].
  apply elem_of_app. right. apply list_elem_of_here.
Qed.

(** The erase of [{addr = 0x4000, len = 0x1000}] with the dispatch
    rejected. *)
Lemma X9_erase_fails_without_completion_witness :
  exists w' e',
    powernv_flash_erase Sample.rejecting Sample.flash 64 Sample.world0 =
      Ret 0 w' /\
    w_erase w' !! 64 = Some e' /\
    state e' = MTD_ERASE_FAILED /\
    fail_addr e' = addr Sample.request /\
    call_mtd_erase_callback 64 e'
      ∈ erase_calls Sample.rejecting Sample.flash 64 Sample.world0.
Proof.
  apply (X9_erase_fails_without_completion Sample.rejecting Sample.flash 64
           Sample.request Sample.world0).
  - reflexivity.
  - right. left.
    exists (call_opal_flash_erase 1 16384 4096 3 (-1)), (-1).
    split; [| split; [reflexivity | discriminate]].
    vm_compute. here_or_further.
Defined.

(** X10.  An erase whose wait delivers a completion message leaves the
    request [MTD_ERASE_DONE] with [fail_addr] untouched, whatever
    completion status the message carries: the bridge returns 0 for every
    completion, and [powernv_flash_erase] goes by that return value. *)
Theorem X10_erase_done_on_any_completion P info erase e w status :
  w_erase w !! erase = Some e ->
  completed_with status (erase_calls P info erase w) ->
  exists w' e',
    powernv_flash_erase P info erase w = Ret 0 w' /\
    w_erase w' !! erase = Some e' /\
    state e' = MTD_ERASE_DONE /\
    fail_addr e' = fail_addr e /\
    call_mtd_erase_callback erase e' ∈ erase_calls P info erase w.
Proof.
  intros He Hdone.
  destruct (powernv_flash_erase_summary P info erase e w He)
    as (rc & cs & w' & Hp & Hrun & Herase & _ & Hcalls).
  rewrite Hcalls in *.
  destruct (async_op_path_return_value _ _ _ _ _ _ _ _ _ _ _ Hp)
    as (_ & _ & Hzero).
  assert (rc = 0) as ->.
  { apply Hzero. exists status.
    now apply (completed_with_before_callback status cs erase
                 (erase_outcome e rc)). }
  exists w', (erase_outcome e 0).
  split; [exact Hrun |].
  split; [rewrite Herase; apply lookup_insert_eq |].
  split; [reflexivity |]. split; [reflexivity |].
  apply elem_of_app. right. apply list_elem_of_here.
Qed.

(** The erase of [{addr = 0x4000, len = 0x1000}] that the firmware
    completes with [OPAL_HARDWARE]. *)
Lemma X10_erase_done_on_any_completion_witness :
  exists w' e',
    powernv_flash_erase Sample.failing_status Sample.flash 64
      Sample.world0 = Ret 0 w' /\
    w_erase w' !! 64 = Some e' /\
    state e' = MTD_ERASE_DONE /\
    fail_addr e' = fail_addr Sample.request /\
    call_mtd_erase_callback 64 e'
      ∈ erase_calls Sample.failing_status Sample.flash 64 Sample.world0.
Proof.
  apply (X10_erase_done_on_any_completion Sample.failing_status Sample.flash
           64 Sample.request Sample.world0 OPAL_HARDWARE).
  - reflexivity.
  - exists 3, (Sample.msg_of Sample.status_hardware).
    split; [| reflexivity].
    vm_compute. here_or_further.
Defined.

(** X11.  The only firmware operation an erase dispatches is
    [opal_flash_erase], with the device's id, the request's [addr] and
    [len] and the token just acquired; it never dispatches a read or a
    write. *)
Theorem X11_erase_dispatches_request P info erase e w c :
  w_erase w !! erase = Some e ->
  c ∈ erase_calls P info erase w ->
  is_dispatch c = true ->
  exists t r,
    token_acquired t (erase_calls P info erase w) /\
    c = call_opal_flash_erase (id info) (to_u64 (addr e)) (len e)
                              (to_u64 t) r.
Proof.
  intros He Hc Hd.
  destruct (powernv_flash_erase_summary P info erase e w He)
    as (rc & cs & w' & Hp & _ & _ & _ & Hcalls).
  rewrite Hcalls in *.
  apply elem_of_app in Hc as [Hc | Hc].
  - destruct (async_op_path_dispatch _ _ _ _ _ _ _ _ _ _ _ _ Hp Hc Hd)
      as (t & r & [Hacq Ht] & ->).
    exists t, r. split; [| reflexivity].
    split; [apply elem_of_app; now left | exact Ht].
  - split_elem Hc. subst c. discriminate Hd.
Qed.

Lemma X11_erase_dispatches_request_witness :
  exists t r,
    token_acquired t
      (erase_calls Sample.succeeding Sample.flash 64 Sample.world0) /\
    call_opal_flash_erase 1 16384 4096 3 OPAL_ASYNC_COMPLETION =
    call_opal_flash_erase (id Sample.flash) (to_u64 (addr Sample.request))
      (len Sample.request) (to_u64 t) r.
Proof.
  apply (X11_erase_dispatches_request Sample.succeeding Sample.flash 64
           Sample.request Sample.world0
           (call_opal_flash_erase 1 16384 4096 3 OPAL_ASYNC_COMPLETION)).
  - reflexivity.
  - vm_compute. here_or_further.
  - reflexivity.
Defined.

(** ** Reading the device description *)

Lemma read_cell_some v i :
  (4 * i + 4 <= length v)%nat ->
  read_cell v i = Some (take 4 (drop (4 * i) v)).
Proof.
  intros H. unfold read_cell.
  destruct (decide _) as [_ | Hn]; [reflexivity |].
  exfalso. apply Hn. rewrite length_take, length_drop. lia.
Qed.

Lemma read_cell_none v i :
  (length v < 4 * i + 4)%nat -> read_cell v i = None.
Proof.
  intros H. unfold read_cell.
  destruct (decide _) as [Hy | _]; [| reflexivity].
  exfalso. rewrite length_take, length_drop in Hy. lia.
Qed.

Lemma be_to_cpu_cell c : length c = 4%nat -> 0 <= be_to_cpu c < 2 ^ 32.
Proof. intros H. pose proof (be_to_cpu_bound c) as Hb. now rewrite H in Hb. Qed.

(** One cell, as the driver reads the device id and the erase-block
    size. *)
Lemma run_of_read_number_1 v w :
  (4 <= length v)%nat ->
  of_read_number (Some v) 1 w = Ret (be_to_cpu (take 4 v)) w.
Proof.
  intros H. unfold of_read_number, of_read_number_loop.
  rewrite read_cell_some by lia.
  cbn [Nat.mul Nat.add]. rewrite drop_0.
  assert (Hc : 0 <= be_to_cpu (take 4 v) < 2 ^ 32).
  { apply be_to_cpu_cell. rewrite length_take. lia. }
  rewrite lor_shiftl_low by lia.
  rewrite to_u64_id by lia. reflexivity.
Qed.

(** Two cells, as the driver reads the total size. *)
Lemma run_of_read_number_2 v w :
  (8 <= length v)%nat ->
  of_read_number (Some v) 2 w = Ret (be_to_cpu (take 8 v)) w.
Proof.
  intros H. unfold of_read_number, of_read_number_loop.
  rewrite !read_cell_some by lia.
  cbn [Nat.mul Nat.add]. rewrite drop_0.
  assert (Hc0 : 0 <= be_to_cpu (take 4 v) < 2 ^ 32).
  { apply be_to_cpu_cell. rewrite length_take. lia. }
  assert (Hc1 : 0 <= be_to_cpu (take 4 (drop 4 v)) < 2 ^ 32).
  { apply be_to_cpu_cell. rewrite length_take, length_drop. lia. }
  rewrite (lor_shiftl_low 0) by lia.
  rewrite (to_u64_id (0 * 2 ^ 32 + _)) by lia.
  rewrite lor_shiftl_low by lia.
  rewrite to_u64_id by lia.
  replace (take 8 v) with (take 4 v ++ take 4 (drop 4 v))
    by apply (take_take_drop v 4 4).
  rewrite be_to_cpu_app, length_take, length_drop.
  replace (4 `min` (length v - 4))%nat with 4%nat by lia.
  reflexivity.
Qed.

Lemma run_of_read_number_1_short v w :
  (length v < 4)%nat -> of_read_number (Some v) 1 w = Oops w.
Proof.
  intros H. unfold of_read_number, of_read_number_loop.
  now rewrite read_cell_none by lia.
Qed.

(** A length that passes [count / sizeof(__be32) == 2] covers two cells. *)
Lemma two_cells_long_enough n :
  to_u64 (Z.of_nat n) / sizeof_be32 = 2 -> (8 <= n)%nat.
Proof.
  unfold to_u64, wrap_unsigned, sizeof_be32. intros H.
  pose proof (Z.mod_le (Z.of_nat n) (2 ^ 64)) as Hle.
  assert (8 <= Z.of_nat n `mod` 2 ^ 64).
  { pose proof (Z.mul_div_le (Z.of_nat n `mod` 2 ^ 64) 4). lia. }
  lia.
Qed.

Lemma two_cells_between n :
  (8 <= n <= 11)%nat -> to_u64 (Z.of_nat n) / sizeof_be32 = 2.
Proof.
  intros H. unfold sizeof_be32. rewrite to_u64_id by lia.
  symmetry. apply (Z.div_unique _ 4 2 (Z.of_nat n - 8)); lia.
Qed.

(** ** [powernv_flash_set_driver_info], case by case *)

Lemma of_get_property_name np :
  (of_get_property np "name" None).1 = np !! "name".
Proof. unfold of_get_property. now destruct (np !! "name"). Qed.

Lemma set_driver_info_filled P dev mtd w block_size reg :
  of_node dev !! "ibm,flash-block-size" = Some block_size ->
  (4 <= length block_size)%nat ->
  of_node dev !! "reg" = Some reg ->
  to_u64 (Z.of_nat (length reg)) / sizeof_be32 = 2 ->
  powernv_flash_set_driver_info P dev mtd w =
  Ret (0, filled_mtd_info dev (priv mtd) reg block_size) w.
Proof.
  intros Hbs Hlen Hreg Hcount.
  pose proof (two_cells_long_enough _ Hcount) as Hlong.
  unfold powernv_flash_set_driver_info.
  rewrite of_get_property_name.
  unfold of_get_property.
  rewrite Hbs, Hreg. cbn [fst fmap option_fmap option_map].
  rewrite bool_decide_eq_false_2 by discriminate.
  rewrite Hcount. cbn [Z.eqb Pos.eqb negb].
  rewrite (run_bind _ _ _ _ _ (run_of_read_number_2 reg w Hlong)).
  rewrite (run_bind _ _ _ _ _ (run_of_read_number_1 block_size w Hlen)).
  reflexivity.
Qed.

Lemma set_driver_info_short_block_size P dev mtd w block_size reg :
  of_node dev !! "ibm,flash-block-size" = Some block_size ->
  (length block_size < 4)%nat ->
  of_node dev !! "reg" = Some reg ->
  to_u64 (Z.of_nat (length reg)) / sizeof_be32 = 2 ->
  powernv_flash_set_driver_info P dev mtd w = Oops w.
Proof.
  intros Hbs Hlen Hreg Hcount.
  pose proof (two_cells_long_enough _ Hcount) as Hlong.
  unfold powernv_flash_set_driver_info, of_get_property.
  rewrite Hbs, Hreg. cbn [fst fmap option_fmap option_map].
  rewrite bool_decide_eq_false_2 by discriminate.
  rewrite Hcount. cbn [Z.eqb Pos.eqb negb].
  rewrite (run_bind _ _ _ _ _ (run_of_read_number_2 reg w Hlong)).
  apply run_bind_oops. now apply run_of_read_number_1_short.
Qed.

(** The three ways [powernv_flash_set_driver_info] ends: it returns 1
    after one error message with [mtd] as it was, it returns 0 without a
    call and with [mtd] filled, or it oopses on a read it should not have
    made. *)
Lemma set_driver_info_outcomes P dev mtd w :
  (exists fmt args,
     powernv_flash_set_driver_info P dev mtd w =
     Ret (1, mtd) (after_calls w [call_dev_err fmt args])) \/
  (exists block_size reg,
     of_node dev !! "ibm,flash-block-size" = Some block_size /\
     (4 <= length block_size)%nat /\
     of_node dev !! "reg" = Some reg /\
     (8 <= length reg)%nat /\
     to_u64 (Z.of_nat (length reg)) / sizeof_be32 = 2 /\
     powernv_flash_set_driver_info P dev mtd w =
     Ret (0, filled_mtd_info dev (priv mtd) reg block_size) w) \/
  powernv_flash_set_driver_info P dev mtd w = Oops w.
Proof.
  destruct (of_node dev !! "ibm,flash-block-size") as [bs |] eqn:Hbs.
  2:{ left. eexists _, _.
      now apply set_driver_info_without_block_size. }
  assert (Hsome : is_Some (of_node dev !! "ibm,flash-block-size"))
    by (rewrite Hbs; eauto).
  destruct (of_node dev !! "reg") as [reg |] eqn:Hreg.
  - destruct (Z.eq_dec (to_u64 (Z.of_nat (length reg)) / sizeof_be32) 2)
      as [Hc | Hc].
    + destruct (le_lt_dec 4 (length bs)) as [Hlen | Hlen].
      * right. left. exists bs, reg.
        repeat split; try assumption.
        -- now apply two_cells_long_enough.
        -- now apply set_driver_info_filled.
      * right. right. now apply (set_driver_info_short_block_size _ _ _ _ bs reg).
    + left. eexists _, _.
      now apply (set_driver_info_reg_not_two_cells _ _ _ _ reg).
  - destruct (Z.eq_dec (to_u64 (indeterminate_int P) / sizeof_be32) 2)
      as [Hc | Hc].
    + right. right. now apply set_driver_info_without_reg.
    + left. eexists _, _.
      now apply set_driver_info_without_reg_rejected.
Qed.

(** X12.  When [powernv_flash_set_driver_info] returns non-zero it
    returns 1, it has written nothing into the [struct mtd_info], and its
    only call is one error message. *)
Theorem X12_set_driver_info_failure_leaves_mtd P dev mtd w r mtd' w' :
  powernv_flash_set_driver_info P dev mtd w = Ret (r, mtd') w' ->
  r <> 0 ->
  r = 1 /\ mtd' = mtd /\
  exists fmt args, calls_since w w' = [call_dev_err fmt args].
Proof.
  intros Hrun Hr.
  destruct (set_driver_info_outcomes P dev mtd w)
    as [(fmt & args & H) | [(bs & reg & _ & _ & _ & _ & _ & H) | H]];
    rewrite H in Hrun; [| | discriminate Hrun].
  - injection Hrun as <- <- <-.
    split; [reflexivity |]. split; [reflexivity |].
    exists fmt, args. apply calls_since_after_calls.
  - injection Hrun as <- _ _. contradiction.
Qed.

(** A node whose ['reg'] has one cell only. *)
Lemma X12_set_driver_info_failure_leaves_mtd_witness :
  1 = 1 /\
  mtd Sample.flash = mtd Sample.flash /\
  exists fmt args,
    calls_since Sample.world0
      (after_calls Sample.world0
         [call_dev_err "couldn't get resource information count=%d\n" [4]])
    = [call_dev_err fmt args].
Proof.
  apply (X12_set_driver_info_failure_leaves_mtd Sample.succeeding
           (dev (Sample.pdev_of Sample2.node_short_reg)) (mtd Sample.flash)
           Sample.world0 1 (mtd Sample.flash)).
  - vm_compute. reflexivity.
  - discriminate.
Defined.

(** X13.  For a node with an ['ibm,flash-block-size'] of at least one
    cell and a ['reg'] of 8 to 11 bytes, [powernv_flash_set_driver_info]
    returns 0 without a call.  The device's total size is the 64-bit
    big-endian number in the first eight bytes of ['reg'], its erase size
    the 32-bit big-endian number in the first four bytes of
    ['ibm,flash-block-size']; it is a NAND-type writeable device with write
    size 1, the three handlers are the driver's, and [priv] is kept. *)
Theorem X13_set_driver_info_geometry P dev mtd w block_size reg :
  of_node dev !! "ibm,flash-block-size" = Some block_size ->
  (4 <= length block_size)%nat ->
  of_node dev !! "reg" = Some reg ->
  (8 <= length reg <= 11)%nat ->
  exists mtd',
    powernv_flash_set_driver_info P dev mtd w = Ret (0, mtd') w /\
    size mtd' = be_to_cpu (take 8 reg) /\
    0 <= size mtd' < 2 ^ 64 /\
    erasesize mtd' = be_to_cpu (take 4 block_size) /\
    0 <= erasesize mtd' < 2 ^ 32 /\
    writesize mtd' = 1 /\ writebufsize mtd' = 1 /\
    type mtd' = MTD_NANDFLASH /\ flags mtd' = MTD_CAP_NANDFLASH /\
    _erase mtd' = handler_powernv_flash_erase /\
    _read mtd' = handler_powernv_flash_read /\
    _write mtd' = handler_powernv_flash_write /\
    name mtd' = of_node dev !! "name" /\
    dev_parent mtd' = dev_addr dev /\
    priv mtd' = priv mtd.
Proof.
  intros Hbs Hlen Hreg Hcount.
  exists (filled_mtd_info dev (priv mtd) reg block_size).
  split.
  - apply set_driver_info_filled; try assumption.
    now apply two_cells_between.
  - cbn. repeat split; try reflexivity.
    + apply be_to_cpu_bound.
    + pose proof (be_to_cpu_bound (take 8 reg)) as Hb.
      rewrite length_take in Hb.
      replace (8 `min` length reg)%nat with 8%nat in Hb by lia.
      apply Hb.
    + apply be_to_cpu_bound.
    + apply be_to_cpu_cell. rewrite length_take. lia.
Qed.

(** The complete sample node: 64 MiB in 4 KiB blocks. *)
Lemma X13_set_driver_info_geometry_witness :
  exists mtd',
    powernv_flash_set_driver_info Sample.succeeding
      (dev (Sample.pdev_of Sample.node_complete)) (mtd Sample.flash)
      Sample.world0 = Ret (0, mtd') Sample.world0 /\
    size mtd' = be_to_cpu (take 8 [0; 0; 0; 0; 4; 0; 0; 0]) /\
    0 <= size mtd' < 2 ^ 64 /\
    erasesize mtd' = be_to_cpu (take 4 [0; 0; 16; 0]) /\
    0 <= erasesize mtd' < 2 ^ 32 /\
    writesize mtd' = 1 /\ writebufsize mtd' = 1 /\
    type mtd' = MTD_NANDFLASH /\ flags mtd' = MTD_CAP_NANDFLASH /\
    _erase mtd' = handler_powernv_flash_erase /\
    _read mtd' = handler_powernv_flash_read /\
    _write mtd' = handler_powernv_flash_write /\
    name mtd' = of_node (dev (Sample.pdev_of Sample.node_complete)) !! "name"
    /\ dev_parent mtd' = dev_addr (dev (Sample.pdev_of Sample.node_complete))
    /\ priv mtd' = priv (mtd Sample.flash).
Proof.
  apply (X13_set_driver_info_geometry Sample.succeeding
           (dev (Sample.pdev_of Sample.node_complete)) (mtd Sample.flash)
           Sample.world0 [0; 0; 16; 0] [0; 0; 0; 0; 4; 0; 0; 0]).
  - reflexivity.
  - cbn. lia.
  - reflexivity.
  - cbn. lia.
Defined.

(** ** [powernv_flash_probe], case by case *)

Lemma run_mtd_device_parse_register P m w :
  mtd_device_parse_register P m w =
  Ret (parse_register P (w_log w) m)
      (after_calls w
         [call_mtd_device_parse_register m (parse_register P (w_log w) m)]).
Proof. reflexivity. Qed.

Lemma probe_allocation_failed P pdev w :
  kzalloc P (w_log w) = NULL ->
  powernv_flash_probe P pdev w =
  Ret (- ENOMEM)
      (after_calls w
         [call_devm_kzalloc NULL;
          call_dev_err "couldn't allocate memory\n" []]).
Proof.
  intros Halloc. unfold powernv_flash_probe.
  rewrite (run_bind _ _ _ _ _ (run_devm_kzalloc P w)).
  rewrite Halloc. cbn [Z.eqb NULL].
  kstep. reflexivity.
Qed.

(** The probe up to the call of [powernv_flash_set_driver_info]. *)
Lemma probe_until_driver_info P pdev w opal_id :
  kzalloc P (w_log w) <> NULL ->
  of_node (dev pdev) !! "ibm,opal-id" = Some opal_id ->
  (4 <= length opal_id)%nat ->
  powernv_flash_probe P pdev w =
  (powernv_flash_set_driver_info P (dev pdev)
     (set_priv (mtd zeroed_powernv_flash) (kzalloc P (w_log w)))
   ≫= fun r => if negb (r.1 =? 0) then mret (- EIO)
               else mtd_device_parse_register P r.2 ≫= fun ret => mret ret)
    (after_calls w [call_devm_kzalloc (kzalloc P (w_log w))]).
Proof.
  intros Halloc Hid Hlen. unfold powernv_flash_probe.
  rewrite (run_bind _ _ _ _ _ (run_devm_kzalloc P w)).
  apply Z.eqb_neq in Halloc. rewrite Halloc.
  unfold of_get_property. rewrite Hid. cbn [fst].
  rewrite bool_decide_eq_false_2 by discriminate.
  now rewrite (run_bind _ _ _ _ _ (run_of_read_number_1 opal_id _ Hlen)).
Qed.

Lemma probe_short_opal_id P pdev w opal_id :
  kzalloc P (w_log w) <> NULL ->
  of_node (dev pdev) !! "ibm,opal-id" = Some opal_id ->
  (length opal_id < 4)%nat ->
  powernv_flash_probe P pdev w =
  Oops (after_calls w [call_devm_kzalloc (kzalloc P (w_log w))]).
Proof.
  intros Halloc Hid Hlen. unfold powernv_flash_probe.
  rewrite (run_bind _ _ _ _ _ (run_devm_kzalloc P w)).
  apply Z.eqb_neq in Halloc. rewrite Halloc.
  unfold of_get_property. rewrite Hid. cbn [fst].
  rewrite bool_decide_eq_false_2 by discriminate.
  apply run_bind_oops. now apply run_of_read_number_1_short.
Qed.

(** The four ways [powernv_flash_probe] ends: [-ENOMEM] without an
    allocation; [-EIO] after one error message; an oops on a read of the
    device description; or the registration of the filled device, whose
    return code it returns. *)
Lemma probe_outcomes P pdev w :
  (kzalloc P (w_log w) = NULL /\
   powernv_flash_probe P pdev w =
   Ret (- ENOMEM)
       (after_calls w
          [call_devm_kzalloc NULL;
           call_dev_err "couldn't allocate memory\n" []])) \/
  (kzalloc P (w_log w) <> NULL /\
   exists fmt args,
     powernv_flash_probe P pdev w =
     Ret (- EIO)
         (after_calls w
            [call_devm_kzalloc (kzalloc P (w_log w));
             call_dev_err fmt args])) \/
  (kzalloc P (w_log w) <> NULL /\
   powernv_flash_probe P pdev w =
   Oops (after_calls w [call_devm_kzalloc (kzalloc P (w_log w))])) \/
  (kzalloc P (w_log w) <> NULL /\
   exists opal_id block_size reg,
     of_node (dev pdev) !! "ibm,opal-id" = Some opal_id /\
     (4 <= length opal_id)%nat /\
     of_node (dev pdev) !! "ibm,flash-block-size" = Some block_size /\
     (4 <= length block_size)%nat /\
     of_node (dev pdev) !! "reg" = Some reg /\
     (8 <= length reg)%nat /\
     to_u64 (Z.of_nat (length reg)) / sizeof_be32 = 2 /\
     powernv_flash_probe P pdev w =
     Ret (parse_register P
            (w_log w ++ [call_devm_kzalloc (kzalloc P (w_log w))])
            (filled_mtd_info (dev pdev) (kzalloc P (w_log w)) reg
                             block_size))
         (after_calls w
            [call_devm_kzalloc (kzalloc P (w_log w));
             call_mtd_device_parse_register
               (filled_mtd_info (dev pdev) (kzalloc P (w_log w)) reg
                                block_size)
               (parse_register P
                  (w_log w ++ [call_devm_kzalloc (kzalloc P (w_log w))])
                  (filled_mtd_info (dev pdev) (kzalloc P (w_log w)) reg
                                   block_size))])).
Proof.
  destruct (Z.eq_dec (kzalloc P (w_log w)) NULL) as [Halloc | Halloc].
  { left. split; [exact Halloc |]. now apply probe_allocation_failed. }
  right.
  destruct (of_node (dev pdev) !! "ibm,opal-id") as [oid |] eqn:Hid.
  2:{ left. split; [exact Halloc |]. eexists _, _.
      now apply probe_without_opal_id. }
  destruct (le_lt_dec 4 (length oid)) as [Hlen | Hlen].
  2:{ right. left. split; [exact Halloc |].
      now apply (probe_short_opal_id P pdev w oid). }
  rewrite (probe_until_driver_info P pdev w oid Halloc Hid Hlen).
  set (k := kzalloc P (w_log w)) in *.
  set (w1 := after_calls w [call_devm_kzalloc k]).
  destruct (set_driver_info_outcomes P (dev pdev)
              (set_priv (mtd zeroed_powernv_flash) k) w1)
    as [(fmt & args & H) | [(bs & reg & Hbs & Hbl & Hreg & Hrl & Hc & H)
                           | H]].
  - left. split; [exact Halloc |]. exists fmt, args.
    rewrite (run_bind _ _ _ _ _ H). cbn [fst Z.eqb negb].
    unfold w1. now rewrite after_calls_app.
  - right. right. split; [exact Halloc |]. exists oid, bs, reg.
    repeat (split; [assumption |]).
    rewrite (run_bind _ _ _ _ _ H). cbn [fst snd Z.eqb negb].
    rewrite (run_bind _ _ _ _ _ (run_mtd_device_parse_register P _ w1)).
    unfold w1. now rewrite after_calls_app.
  - right. left. split; [exact Halloc |].
    now rewrite (run_bind_oops _ _ _ _ H).
Qed.

(** X14.  When [devm_kzalloc] fails, the probe returns [-ENOMEM] after one
    error message; it registers nothing and never looks at the device
    description, so every device gets the same run. *)
Theorem X14_probe_allocation_failure P pdev w :
  kzalloc P (w_log w) = NULL ->
  (exists w',
     powernv_flash_probe P pdev w = Ret (- ENOMEM) w') /\
  probe_calls P pdev w =
    [call_devm_kzalloc NULL;
     call_dev_err "couldn't allocate memory\n" []] /\
  forall pdev',
    powernv_flash_probe P pdev' w = powernv_flash_probe P pdev w.
Proof.
  intros Halloc.
  pose proof (probe_allocation_failed P pdev w Halloc) as Hrun.
  split; [eauto |]. split.
  - unfold probe_calls. rewrite Hrun. apply calls_since_after_calls.
  - intros pdev'. rewrite Hrun. now apply probe_allocation_failed.
Qed.

Lemma X14_probe_allocation_failure_witness :
  (exists w',
     powernv_flash_probe Sample2.out_of_memory
       (Sample.pdev_of Sample.node_complete) Sample.world0 =
     Ret (- ENOMEM) w') /\
  probe_calls Sample2.out_of_memory (Sample.pdev_of Sample.node_complete)
    Sample.world0 =
    [call_devm_kzalloc NULL;
     call_dev_err "couldn't allocate memory\n" []] /\
  forall pdev',
    powernv_flash_probe Sample2.out_of_memory pdev' Sample.world0 =
    powernv_flash_probe Sample2.out_of_memory
      (Sample.pdev_of Sample.node_complete) Sample.world0.
Proof.
  apply (X14_probe_allocation_failure Sample2.out_of_memory
           (Sample.pdev_of Sample.node_complete) Sample.world0).
  reflexivity.
Defined.

(** X15.  A device that the probe registers has passed every check of
    the start-up path: the allocation succeeded, ['ibm,opal-id'] and
    ['ibm,flash-block-size'] are present, and ['reg'] is present with a
    length that counts as two cells, so at least eight bytes.  The
    registered [struct mtd_info] has the number in those eight bytes as its
    size, [priv] pointing to the allocation, the NAND type and flags, write
    size 1 and the driver's three handlers.  The registration is the
    probe's only one, and its return code is what the probe returns. *)
Theorem X15_probe_registers_checked_description P pdev w m r :
  call_mtd_device_parse_register m r ∈ probe_calls P pdev w ->
  kzalloc P (w_log w) <> NULL /\
  is_Some (of_node (dev pdev) !! "ibm,opal-id") /\
  is_Some (of_node (dev pdev) !! "ibm,flash-block-size") /\
  (exists reg,
     of_node (dev pdev) !! "reg" = Some reg /\
     to_u64 (Z.of_nat (length reg)) / sizeof_be32 = 2 /\
     (8 <= length reg)%nat /\
     size m = be_to_cpu (take 8 reg)) /\
  priv m = kzalloc P (w_log w) /\
  type m = MTD_NANDFLASH /\ flags m = MTD_CAP_NANDFLASH /\
  writesize m = 1 /\ writebufsize m = 1 /\
  _erase m = handler_powernv_flash_erase /\
  _read m = handler_powernv_flash_read /\
  _write m = handler_powernv_flash_write /\
  name m = of_node (dev pdev) !! "name" /\
  dev_parent m = dev_addr (dev pdev) /\
  (exists w', powernv_flash_probe P pdev w = Ret r w') /\
  count_calls is_register (probe_calls P pdev w) = 1%nat.
Proof.
  intros Hc. unfold probe_calls in *.
  destruct (probe_outcomes P pdev w)
    as [[_ H] | [(_ & fmt & args & H) | [[_ H]
       | (Halloc & oid & bs & reg & Hid & Hil & Hbs & Hbl & Hreg & Hrl & Hcnt
          & H)]]];
    rewrite H in *; cbn [final_world] in *;
    rewrite calls_since_after_calls in *;
    split_elem Hc; try discriminate Hc.
  injection Hc as -> ->.
  split; [exact Halloc |].
  split; [rewrite Hid; eauto |].
  split; [rewrite Hbs; eauto |].
  split; [exists reg; repeat split; assumption || reflexivity |].
  repeat (split; [reflexivity |]).
  split; [eauto | reflexivity].
Qed.

Lemma X15_probe_registers_checked_description_witness :
  kzalloc Sample.succeeding (w_log Sample.world0) <> NULL /\
  is_Some (of_node (dev (Sample.pdev_of Sample.node_complete))
             !! "ibm,opal-id") /\
  is_Some (of_node (dev (Sample.pdev_of Sample.node_complete))
             !! "ibm,flash-block-size") /\
  (exists reg,
     of_node (dev (Sample.pdev_of Sample.node_complete)) !! "reg" =
       Some reg /\
     to_u64 (Z.of_nat (length reg)) / sizeof_be32 = 2 /\
     (8 <= length reg)%nat /\
     size (filled_mtd_info (dev (Sample.pdev_of Sample.node_complete))
             49152 [0; 0; 0; 0; 4; 0; 0; 0] [0; 0; 16; 0]) =
     be_to_cpu (take 8 reg)) /\
  priv (filled_mtd_info (dev (Sample.pdev_of Sample.node_complete))
          49152 [0; 0; 0; 0; 4; 0; 0; 0] [0; 0; 16; 0]) =
    kzalloc Sample.succeeding (w_log Sample.world0) /\
  type (filled_mtd_info (dev (Sample.pdev_of Sample.node_complete))
          49152 [0; 0; 0; 0; 4; 0; 0; 0] [0; 0; 16; 0]) = MTD_NANDFLASH /\
  flags (filled_mtd_info (dev (Sample.pdev_of Sample.node_complete))
           49152 [0; 0; 0; 0; 4; 0; 0; 0] [0; 0; 16; 0]) =
    MTD_CAP_NANDFLASH /\
  writesize (filled_mtd_info (dev (Sample.pdev_of Sample.node_complete))
               49152 [0; 0; 0; 0; 4; 0; 0; 0] [0; 0; 16; 0]) = 1 /\
  writebufsize (filled_mtd_info (dev (Sample.pdev_of Sample.node_complete))
                  49152 [0; 0; 0; 0; 4; 0; 0; 0] [0; 0; 16; 0]) = 1 /\
  _erase (filled_mtd_info (dev (Sample.pdev_of Sample.node_complete))
            49152 [0; 0; 0; 0; 4; 0; 0; 0] [0; 0; 16; 0]) =
    handler_powernv_flash_erase /\
  _read (filled_mtd_info (dev (Sample.pdev_of Sample.node_complete))
           49152 [0; 0; 0; 0; 4; 0; 0; 0] [0; 0; 16; 0]) =
    handler_powernv_flash_read /\
  _write (filled_mtd_info (dev (Sample.pdev_of Sample.node_complete))
            49152 [0; 0; 0; 0; 4; 0; 0; 0] [0; 0; 16; 0]) =
    handler_powernv_flash_write /\
  name (filled_mtd_info (dev (Sample.pdev_of Sample.node_complete))
          49152 [0; 0; 0; 0; 4; 0; 0; 0] [0; 0; 16; 0]) =
    of_node (dev (Sample.pdev_of Sample.node_complete)) !! "name" /\
  dev_parent (filled_mtd_info (dev (Sample.pdev_of Sample.node_complete))
                49152 [0; 0; 0; 0; 4; 0; 0; 0] [0; 0; 16; 0]) =
    dev_addr (dev (Sample.pdev_of Sample.node_complete)) /\
  (exists w',
     powernv_flash_probe Sample.succeeding
       (Sample.pdev_of Sample.node_complete) Sample.world0 = Ret 0 w') /\
  count_calls is_register
    (probe_calls Sample.succeeding (Sample.pdev_of Sample.node_complete)
       Sample.world0) = 1%nat.
Proof.
  apply (X15_probe_registers_checked_description Sample.succeeding
           (Sample.pdev_of Sample.node_complete) Sample.world0
           (filled_mtd_info (dev (Sample.pdev_of Sample.node_complete))
              49152 [0; 0; 0; 0; 4; 0; 0; 0] [0; 0; 16; 0]) 0).
  vm_compute. here_or_further.
Defined.

(** X16.  For a complete description (an ['ibm,opal-id'] and an
    ['ibm,flash-block-size'] of at least one cell, a ['reg'] of 8 to 11
    bytes) and a successful allocation, the probe registers the filled
    device exactly once, without an error message, and returns the return
    code of [mtd_device_parse_register] unchanged, also when that code
    reports a failure. *)
Theorem X16_probe_returns_registration_code
    P pdev w opal_id block_size reg :
  kzalloc P (w_log w) <> NULL ->
  of_node (dev pdev) !! "ibm,opal-id" = Some opal_id ->
  (4 <= length opal_id)%nat ->
  of_node (dev pdev) !! "ibm,flash-block-size" = Some block_size ->
  (4 <= length block_size)%nat ->
  of_node (dev pdev) !! "reg" = Some reg ->
  (8 <= length reg <= 11)%nat ->
  exists code w',
    powernv_flash_probe P pdev w = Ret code w' /\
    probe_calls P pdev w =
      [call_devm_kzalloc (kzalloc P (w_log w));
       call_mtd_device_parse_register
         (filled_mtd_info (dev pdev) (kzalloc P (w_log w)) reg block_size)
         code] /\
    code =
      parse_register P
        (w_log w ++ [call_devm_kzalloc (kzalloc P (w_log w))])
        (filled_mtd_info (dev pdev) (kzalloc P (w_log w)) reg block_size).
Proof.
  intros Halloc Hid Hil Hbs Hbl Hreg Hrl.
  pose proof (two_cells_between _ Hrl) as Hcount.
  assert (Hrun :
    powernv_flash_probe P pdev w =
    Ret (parse_register P
           (w_log w ++ [call_devm_kzalloc (kzalloc P (w_log w))])
           (filled_mtd_info (dev pdev) (kzalloc P (w_log w)) reg
                            block_size))
        (after_calls w
           [call_devm_kzalloc (kzalloc P (w_log w));
            call_mtd_device_parse_register
              (filled_mtd_info (dev pdev) (kzalloc P (w_log w)) reg
                               block_size)
              (parse_register P
                 (w_log w ++ [call_devm_kzalloc (kzalloc P (w_log w))])
                 (filled_mtd_info (dev pdev) (kzalloc P (w_log w)) reg
                                  block_size))])).
  { rewrite (probe_until_driver_info P pdev w opal_id Halloc Hid Hil).
    rewrite (run_bind _ _ _ _ _
               (set_driver_info_filled P (dev pdev) _ _ block_size reg
                  Hbs Hbl Hreg Hcount)).
    cbn [fst snd Z.eqb negb].
    rewrite (run_bind _ _ _ _ _ (run_mtd_device_parse_register P _ _)).
    now rewrite after_calls_app. }
  eexists _, _. split; [exact Hrun |].
  split; [| reflexivity].
  unfold probe_calls. rewrite Hrun. apply calls_since_after_calls.
Qed.

(** The complete sample node on a platform whose MTD core answers
    [-EINVAL]: the probe returns [-EINVAL]. *)
Lemma X16_probe_returns_registration_code_witness :
  exists code w',
    powernv_flash_probe Sample2.refusing_registry
      (Sample.pdev_of Sample.node_complete) Sample.world0 = Ret code w' /\
    probe_calls Sample2.refusing_registry
      (Sample.pdev_of Sample.node_complete) Sample.world0 =
      [call_devm_kzalloc
         (kzalloc Sample2.refusing_registry (w_log Sample.world0));
       call_mtd_device_parse_register
         (filled_mtd_info (dev (Sample.pdev_of Sample.node_complete))
            (kzalloc Sample2.refusing_registry (w_log Sample.world0))
            [0; 0; 0; 0; 4; 0; 0; 0] [0; 0; 16; 0])
         code] /\
    code =
      parse_register Sample2.refusing_registry
        (w_log Sample.world0 ++
         [call_devm_kzalloc
            (kzalloc Sample2.refusing_registry (w_log Sample.world0))])
        (filled_mtd_info (dev (Sample.pdev_of Sample.node_complete))
           (kzalloc Sample2.refusing_registry (w_log Sample.world0))
           [0; 0; 0; 0; 4; 0; 0; 0] [0; 0; 16; 0]).
Proof.
  apply (X16_probe_returns_registration_code Sample2.refusing_registry
           (Sample.pdev_of Sample.node_complete) Sample.world0
           [0; 0; 0; 1]).
  - discriminate.
  - reflexivity.
  - cbn. lia.
  - reflexivity.
  - cbn. lia.
  - reflexivity.
  - cbn. lia.
Defined.

(** X17.  Whenever the probe returns without having registered a device,
    it has returned [-ENOMEM] or [-EIO] and its last call was an error
    message. *)
Theorem X17_probe_failure_is_reported P pdev w r w' :
  powernv_flash_probe P pdev w = Ret r w' ->
  count_calls is_register (probe_calls P pdev w) = 0%nat ->
  (r = - ENOMEM \/ r = - EIO) /\
  exists fmt args,
    probe_calls P pdev w =
      [call_devm_kzalloc (kzalloc P (w_log w)); call_dev_err fmt args].
Proof.
  intros Hrun Hcount. unfold probe_calls in *.
  destruct (probe_outcomes P pdev w)
    as [[Halloc H] | [(_ & fmt & args & H) | [[_ H]
       | (_ & oid & bs & reg & _ & _ & _ & _ & _ & _ & _ & H)]]];
    rewrite H in *; cbn [final_world] in *;
    rewrite calls_since_after_calls in *.
  - injection Hrun as <- _. split; [now left |].
    rewrite Halloc. eauto.
  - injection Hrun as <- _. split; [now right | eauto].
  - discriminate Hrun.
  - discriminate Hcount.
Qed.

(** The node without ['ibm,flash-block-size']. *)
Lemma X17_probe_failure_is_reported_witness :
  (- EIO = - ENOMEM \/ - EIO = - EIO) /\
  exists fmt args,
    probe_calls Sample.succeeding
      (Sample.pdev_of Sample2.node_without_block_size) Sample.world0 =
      [call_devm_kzalloc (kzalloc Sample.succeeding (w_log Sample.world0));
       call_dev_err fmt args].
Proof.
  apply (X17_probe_failure_is_reported Sample.succeeding
           (Sample.pdev_of Sample2.node_without_block_size) Sample.world0
           (- EIO)
           (after_calls Sample.world0
              [call_devm_kzalloc 49152;
               call_dev_err
                 "no device property 'ibm,flash-block-size'\n" []])).
  - vm_compute. reflexivity.
  - vm_compute. reflexivity.
Defined.

(** ** The token pool across invocations *)

Lemma held_tokens_app cs1 cs2 :
  held_tokens (cs1 ++ cs2) = fold_left held_step cs2 (held_tokens cs1).
Proof. unfold held_tokens. apply fold_left_app. Qed.

(** X18.  What one invocation of the bridge does to the tokens held, after
    any history: nothing when the acquisition fails; when the dispatch is
    rejected the acquired token joins the held ones and stays there; when
    the dispatch is accepted the acquired token is not held afterwards and
    every other token is held exactly as before. *)
Theorem X18_bridge_effect_on_held_tokens P info op offset len retlen buf w :
  exists r w',
    powernv_flash_async_op P info op offset len retlen buf w = Ret r w' /\
    ((token_failed (bridge_calls P info op offset len retlen buf w) /\
      held_tokens (w_log w') = held_tokens (w_log w)) \/
     (exists t,
        token_acquired t (bridge_calls P info op offset len retlen buf w) /\
        dispatch_rejected (bridge_calls P info op offset len retlen buf w) /\
        held_tokens (w_log w') = t :: held_tokens (w_log w)) \/
     (exists t,
        token_acquired t (bridge_calls P info op offset len retlen buf w) /\
        dispatch_accepted (bridge_calls P info op offset len retlen buf w) /\
        held_tokens (w_log w') =
          List.filter (fun t' => negb (t' =? t)) (held_tokens (w_log w)))).
Proof.
  destruct (bridge_calls_path P info op offset len retlen buf w)
    as (r & m & Hrun & Hp).
  remember (bridge_calls P info op offset len retlen buf w) as cs eqn:Ecs.
  clear Ecs.
  exists r, (world_after w cs m). split; [exact Hrun |]. clear Hrun.
  cbn [world_after w_log]. rewrite held_tokens_app.
  destruct Hp as [t0 Ht0 | t0 r0 Ht0 Hr0 | t0 r0 rc msg Ht0 Hr0 Hw
                 | t0 r0 msg Ht0 Hr0 Hs | t0 r0 msg Ht0 Hr0 Hs].
  - left. split.
    + exists t0. split; [here_or_further | exact Ht0].
    + cbn. apply Z.ltb_lt in Ht0. now rewrite Ht0.
  - right. left. exists t0.
    split; [split; [here_or_further | exact Ht0] |]. split.
    + exists (dispatch_call P info op offset len buf t0 r0), (to_int r0).
      split; [here_or_further |].
      split; [apply dispatch_rc_dispatch_call | exact Hr0].
    + cbn. rewrite held_step_dispatch_call.
      apply Z.ltb_ge in Ht0. now rewrite Ht0.
  - right. right. exists t0.
    split; [split; [here_or_further | exact Ht0] |]. split.
    + exists (dispatch_call P info op offset len buf t0 r0).
      split; [here_or_further |].
      rewrite dispatch_rc_dispatch_call. now f_equal.
    + cbn. rewrite held_step_dispatch_call.
      pose proof Ht0 as Hge. apply Z.ltb_ge in Hge. rewrite Hge.
      cbn. now rewrite Z.eqb_refl.
  - right. right. exists t0.
    split; [split; [here_or_further | exact Ht0] |]. split.
    + exists (dispatch_call P info op offset len buf t0 r0).
      split; [here_or_further |].
      rewrite dispatch_rc_dispatch_call. now f_equal.
    + cbn. rewrite held_step_dispatch_call.
      pose proof Ht0 as Hge. apply Z.ltb_ge in Hge. rewrite Hge.
      cbn. now rewrite Z.eqb_refl.
  - right. right. exists t0.
    split; [split; [here_or_further | exact Ht0] |]. split.
    + exists (dispatch_call P info op offset len buf t0 r0).
      split; [here_or_further |].
      rewrite dispatch_rc_dispatch_call. now f_equal.
    + cbn. rewrite held_step_dispatch_call.
      pose proof Ht0 as Hge. apply Z.ltb_ge in Hge. rewrite Hge.
      cbn. now rewrite Z.eqb_refl.
Qed.
